(** * Sequential tool-calling rounds of [backend/ai_generator.py]

    A shallow embedding of [AIGenerator.generate_response],
    [AIGenerator._execute_sequential_rounds] and
    [AIGenerator._handle_tool_execution_sequential], and the properties of
    the orchestration loop that follow from them.

    The model provider and the tool manager are external collaborators:
    they are taken as arbitrary functions over an abstract [World], which
    may answer or raise.  Every call that reaches one of them is recorded,
    in order, in a trace of [Event]s. *)

From Stdlib Require Import String Ascii List ZArith Lia Bool.
Import ListNotations.

Open Scope string_scope.
Open Scope list_scope.
Open Scope Z_scope.

Set Implicit Arguments.

(** ** Data model *)

(** The outcome of a Python call: a value, or an [Exception] carried by
    the text [str(e)] the handlers print. *)
Inductive Result (A : Type) : Type :=
| Ok (a : A)
| Raise (e : string).
Arguments Ok {A} a.
Arguments Raise {A} e.

(** Keyword arguments of a tool call ([content_block.input]); the loop
    only passes them through. *)
Definition ToolInput : Type := list (string * string).

(** The blocks of [response.content]: objects of the provider's SDK.
    The constructor is the [type] of the block, ["text"] or ["tool_use"]. *)
Inductive ContentBlock : Type :=
| TextBlock (text : string)
| ToolUseBlock (id : string) (name : string) (input : ToolInput).

(** The dict [{"type": "tool_result", "tool_use_id": ..., "content": ...}].
    [is_error] is the optional key of the wire format; [None] is a dict
    without that key. *)
Record ToolResult : Type := mkToolResult {
  tool_use_id : string;
  result_content : string;
  is_error : option bool
}.

Inductive Role : Type := user | assistant.

(** The ["content"] of a message: the query text, the content list of a
    response, or a list of tool-result dicts. *)
Inductive MessageContent : Type :=
| Str (s : string)
| ResponseContent (blocks : list ContentBlock)
| ToolResults (results : list ToolResult).

Record Message : Type := mkMessage {
  role : Role;
  content : MessageContent
}.

(** A tool definition of the [tools] list, opaque to the loop. *)
Record ToolSchema : Type := mkToolSchema {
  schema_name : string;
  schema_description : string;
  input_schema : string
}.

(** The keyword arguments of [client.messages.create]; the keys
    ["tools"] and ["tool_choice"] are optional. *)
Record ApiParams : Type := mkApiParams {
  p_model : string;
  p_temperature : Z;
  p_max_tokens : Z;
  p_messages : list Message;
  p_system : string;
  p_tools : option (list ToolSchema);
  p_tool_choice : option string
}.

Record Response : Type := mkResponse {
  stop_reason : string;
  response_content : list ContentBlock
}.

(** What the loop did to its collaborators, in order. *)
Inductive Event : Type :=
| ApiCall (params : ApiParams) (outcome : Result Response)
| ToolCall (id : string) (name : string) (input : ToolInput)
           (outcome : Result string).

(** [response.content[0].text] *)
Definition content0_text (response : Response) : Result string :=
  match response_content response with
  | [] => Raise "list index out of range"
  | TextBlock text :: _ => Ok text
  | ToolUseBlock _ _ _ :: _ =>
      Raise "'ToolUseBlock' object has no attribute 'text'"
  end.

Definition dq : string := String (ascii_of_nat 34) EmptyString.
Definition nl : string := String (ascii_of_nat 10) EmptyString.

Definition SYSTEM_PROMPT : string :=
  (" You are an AI assistant specialized in course materials and educational content with access to comprehensive search and outline tools for course information.

Tool Usage:
- **search_course_content**: Use for questions about specific course content or detailed educational materials
- **get_course_outline**: Use for questions about course structure, lesson lists, or course overviews
- **Sequential tool calls allowed**: You may make up to 2 tool calls across separate reasoning rounds if needed
- **Tool call strategy**: After receiving tool results, consider if additional searches would improve your answer
- Synthesize tool results into accurate, fact-based responses
- If tools yield no results, state this clearly without offering alternatives

For Course Outline Queries:
- When users ask about course structure, lesson lists, or " ++ dq ++ "what's covered" ++ dq ++ " in a course, use get_course_outline
- Always include the course title, course link (if available), and complete lesson list in your response
- Format lesson information as: " ++ dq ++ "Lesson [number]: [title]" ++ dq ++ "
- Include the total number of lessons

Response Protocol:
- **General knowledge questions**: Answer using existing knowledge without using tools
- **Course content questions**: Use search_course_content tool first, then answer
- **Course outline questions**: Use get_course_outline tool first, then answer
- **No meta-commentary**:
 - Provide direct answers only â€” no reasoning process, tool explanations, or question-type analysis
 - Do not mention " ++ dq ++ "based on the tool results" ++ dq ++ "

All responses must be:
1. **Brief, Concise and focused** - Get to the point quickly
2. **Educational** - Maintain instructional value
3. **Clear** - Use accessible language
4. **Example-supported** - Include relevant examples when they aid understanding
Provide only the direct answer to what was asked.
")%string.

(** The system content of a call: the conditional expression at the top
    of [generate_response].  [None] and the empty string are falsy. *)
Definition system_content_of (conversation_history : option string) : string :=
  match conversation_history with
  | None => SYSTEM_PROMPT
  | Some EmptyString => SYSTEM_PROMPT
  | Some history =>
      (SYSTEM_PROMPT ++ nl ++ nl ++ "Previous conversation:" ++ nl ++ history)%string
  end.

Section Orchestration.

(** The state of the outside world: whatever the provider and the tools
    depend on and change. *)
Context {World : Type}.

(** [client.messages.create], applied to the keyword arguments. *)
Definition Client : Type := ApiParams -> World -> Result Response * World.

(** [tool_manager.execute_tool], applied to a name and keyword arguments. *)
Definition ToolManager : Type :=
  string -> ToolInput -> World -> Result string * World.

Record AIGenerator : Type := mkAIGenerator {
  client : Client;
  model : string
}.

(** The objects one call of [generate_response] works on: the world, the
    one [messages] list (appended to in place) and the local
    [round_count]. *)
Record Store : Type := mkStore {
  world : World;
  messages : list Message;
  round_count : Z
}.

(** ** Computations

    A computation runs from a store and gives a value or a raised
    exception, the events it caused and the store it left.  [None] is a
    loop that ran out of fuel. *)
Definition M (A : Type) : Type :=
  Store -> option (Result A * list Event * Store).

Definition ret {A} (a : A) : M A :=
  fun s => Some (Ok a, [], s).

Definition bind {A B} (m : M A) (f : A -> M B) : M B :=
  fun s =>
    match m s with
    | None => None
    | Some (Raise e, t1, s1) => Some (Raise e, t1, s1)
    | Some (Ok a, t1, s1) =>
        match f a s1 with
        | None => None
        | Some (r, t2, s2) => Some (r, t1 ++ t2, s2)
        end
    end.

(** [try: m except Exception as e: h e] *)
Definition try_except {A} (m : M A) (h : string -> M A) : M A :=
  fun s =>
    match m s with
    | None => None
    | Some (Ok a, t1, s1) => Some (Ok a, t1, s1)
    | Some (Raise e, t1, s1) =>
        match h e s1 with
        | None => None
        | Some (r, t2, s2) => Some (r, t1 ++ t2, s2)
        end
    end.

Definition out_of_fuel {A} : M A := fun _ => None.

Definition lift {A} (r : Result A) : M A :=
  fun s => Some (r, [], s).

Definition get_messages : M (list Message) :=
  fun s => Some (Ok (messages s), [], s).

(** [messages.append(m)] *)
Definition append_message (m : Message) : M unit :=
  fun s => Some (Ok tt, [], mkStore (world s) (messages s ++ [m]) (round_count s)).

Definition get_round_count : M Z :=
  fun s => Some (Ok (round_count s), [], s).

Definition set_round_count (n : Z) : M unit :=
  fun s => Some (Ok tt, [], mkStore (world s) (messages s) n).

Definition messages_create (c : Client) (params : ApiParams) : M Response :=
  fun s =>
    let '(r, w) := c params (world s) in
    Some (r, [ApiCall params r], mkStore w (messages s) (round_count s)).

Definition execute_tool (tm : ToolManager) (id name : string) (input : ToolInput)
  : M string :=
  fun s =>
    let '(r, w) := tm name input (world s) in
    Some (r, [ToolCall id name input r], mkStore w (messages s) (round_count s)).

End Orchestration.

Arguments Client : clear implicits.
Arguments ToolManager : clear implicits.
Arguments AIGenerator : clear implicits.
Arguments Store : clear implicits.
Arguments M : clear implicits.

Notation "x <- m ;; k" := (bind m (fun x => k))
  (at level 61, m at next level, right associativity).
Notation "m ;;; k" := (bind m (fun _ => k))
  (at level 61, right associativity).

(** ** The program *)

Section Program.

Context {World : Type}.

(** [self.base_params], extended with the keys of one call. *)
Definition api_params (self : AIGenerator World) (msgs : list Message)
    (system_content : string) (tools : option (list ToolSchema))
    (tool_choice : option string) : ApiParams :=
  {| p_model := model self;
     p_temperature := 0;
     p_max_tokens := 800;
     p_messages := msgs;
     p_system := system_content;
     p_tools := tools;
     p_tool_choice := tool_choice |}.

(** The [for content_block in response.content] loop of
    [_handle_tool_execution_sequential], with its two accumulators; the
    test [content_block.type == "tool_use"] is the match on the block. *)
Fixpoint for_content_blocks (tool_manager : ToolManager World)
    (blocks : list ContentBlock) (tool_results : list ToolResult)
    (execution_success : bool) : M World (list ToolResult * bool) :=
  match blocks with
  | [] => ret (tool_results, execution_success)
  | content_block :: rest =>
      match content_block with
      | ToolUseBlock id name input =>
          acc <- try_except
                   (tool_result <- execute_tool tool_manager id name input ;;
                    ret (tool_results ++ [mkToolResult id tool_result None],
                         execution_success))
                   (fun e =>
                      ret (tool_results ++
                             [mkToolResult id
                                ("Tool execution failed: " ++ e)%string None],
                           false)) ;;
          for_content_blocks tool_manager rest (fst acc) (snd acc)
      | TextBlock _ =>
          for_content_blocks tool_manager rest tool_results execution_success
      end
  end.

(** The [messages] list is the one of the caller, changed in place; the
    function returns it with the success flag, so only the flag is a
    result here. *)
Definition _handle_tool_execution_sequential (response : Response)
    (tool_manager : ToolManager World) : M World bool :=
  append_message (mkMessage assistant (ResponseContent (response_content response))) ;;;
  acc <- for_content_blocks tool_manager (response_content response) [] true ;;
  let '(tool_results, execution_success) := acc in
  match tool_results with
  | [] => ret execution_success
  | _ :: _ =>
      append_message (mkMessage user (ToolResults tool_results)) ;;;
      ret execution_success
  end.

(** How one pass through the body of the [while] loop ends. *)
Inductive Flow : Type :=
| Return (answer : string)
| Continue.

(** The [try] statement inside the loop. *)
Definition round_body (self : AIGenerator World) (system_content : string)
    (tools : list ToolSchema) (tool_manager : ToolManager World) : M World Flow :=
  try_except
    (msgs <- get_messages ;;
     response <- messages_create (client self)
                   (api_params self msgs system_content (Some tools) (Some "auto")) ;;
     rc <- get_round_count ;;
     set_round_count (rc + 1) ;;;
     if negb (stop_reason response =? "tool_use")%string then
       text <- lift (content0_text response) ;;
       ret (Return text)
     else
       tool_success <- _handle_tool_execution_sequential response tool_manager ;;
       if negb tool_success then
         msgs <- get_messages ;;
         final_response <- messages_create (client self)
                             (api_params self msgs system_content None None) ;;
         text <- lift (content0_text final_response) ;;
         ret (Return text)
       else
         ret Continue)
    (fun e => ret (Return ("Error generating response: " ++ e)%string)).

(** [while round_count < max_rounds]: [Some answer] is a [return] from
    inside the loop, [None] is the loop left because its condition is
    false.  [fuel] bounds the number of passes; each pass that continues
    has added one to [round_count], so [Z.to_nat max_rounds] passes are
    enough ([rounds_sound]). *)
Fixpoint while_rounds (fuel : nat) (self : AIGenerator World)
    (system_content : string) (tools : list ToolSchema)
    (tool_manager : ToolManager World) (max_rounds : Z)
    : M World (option string) :=
  rc <- get_round_count ;;
  if rc <? max_rounds then
    match fuel with
    | O => out_of_fuel
    | S fuel' =>
        flow <- round_body self system_content tools tool_manager ;;
        match flow with
        | Return answer => ret (Some answer)
        | Continue =>
            while_rounds fuel' self system_content tools tool_manager max_rounds
        end
    end
  else ret None.

(** What follows the loop: nothing after a [return] from inside it, the
    guarded final call when the rounds are used up. *)
Definition after_loop (self : AIGenerator World) (system_content : string)
    (returned : option string) : M World string :=
  match returned with
  | Some answer => ret answer
  | None =>
      try_except
        (msgs <- get_messages ;;
         final_response <- messages_create (client self)
                             (api_params self msgs system_content None None) ;;
         lift (content0_text final_response))
        (fun e => ret ("Error generating final response: " ++ e)%string)
  end.

Definition _execute_sequential_rounds (self : AIGenerator World)
    (system_content : string) (tools : list ToolSchema)
    (tool_manager : ToolManager World) (max_rounds : Z) : M World string :=
  set_round_count 0 ;;;
  returned <- while_rounds (Z.to_nat max_rounds) self system_content tools
                tool_manager max_rounds ;;
  after_loop self system_content returned.

(** [generate_response]: the store of the call is made here, from the
    world the call starts in.  [round_count] is not yet bound there; the
    store holds 0 until [_execute_sequential_rounds] assigns it. *)
Definition generate_response (self : AIGenerator World) (query : string)
    (conversation_history : option string)
    (tools : option (list ToolSchema))
    (tool_manager : option (ToolManager World)) (max_rounds : Z)
    (w : World) : option (Result string * list Event * Store World) :=
  let system_content := system_content_of conversation_history in
  let s := mkStore w [mkMessage user (Str query)] 0 in
  match tools, tool_manager with
  | Some (t :: ts), Some tm =>
      _execute_sequential_rounds self system_content (t :: ts) tm max_rounds s
  | _, _ =>
      (msgs <- get_messages ;;
       response <- messages_create (client self)
                     (api_params self msgs system_content None None) ;;
       lift (content0_text response)) s
  end.

(** ** Reading a trace *)

(** The model calls of a trace, in order. *)
Fixpoint api_calls (tr : list Event) : list (ApiParams * Result Response) :=
  match tr with
  | [] => []
  | ApiCall p o :: rest => (p, o) :: api_calls rest
  | ToolCall _ _ _ _ :: rest => api_calls rest
  end.

Definition is_tool_call (ev : Event) : bool :=
  match ev with
  | ToolCall _ _ _ _ => true
  | ApiCall _ _ => false
  end.

(** A model call that carries the ["tools"] key. *)
Definition tool_enabled (p : ApiParams) : bool :=
  match p_tools p with
  | Some _ => true
  | None => false
  end.

(** The ids of the tool-use blocks of a content list, in order. *)
Fixpoint tool_use_ids (blocks : list ContentBlock) : list string :=
  match blocks with
  | [] => []
  | ToolUseBlock id _ _ :: rest => id :: tool_use_ids rest
  | TextBlock _ :: rest => tool_use_ids rest
  end.

(** The tool-result dict the loop builds for one dispatch. *)
Definition result_of_dispatch (id : string) (outcome : Result string) : ToolResult :=
  match outcome with
  | Ok tool_result => mkToolResult id tool_result None
  | Raise e => mkToolResult id ("Tool execution failed: " ++ e)%string None
  end.

Fixpoint results_of (calls : list Event) : list ToolResult :=
  match calls with
  | [] => []
  | ToolCall id _ _ outcome :: rest => result_of_dispatch id outcome :: results_of rest
  | ApiCall _ _ :: rest => results_of rest
  end.

(** No dispatch of the list raised. *)
Fixpoint all_succeeded (calls : list Event) : bool :=
  match calls with
  | [] => true
  | ToolCall _ _ _ (Ok _) :: rest => all_succeeded rest
  | ToolCall _ _ _ (Raise _) :: rest => false
  | ApiCall _ _ :: rest => all_succeeded rest
  end.

(** The events of dispatching a content list: one tool call for each
    tool-use block, in order, and nothing for the other blocks. *)
Inductive dispatched : list ContentBlock -> list Event -> Prop :=
| dispatched_nil : dispatched [] []
| dispatched_text text blocks calls :
    dispatched blocks calls ->
    dispatched (TextBlock text :: blocks) calls
| dispatched_tool_use id name input outcome blocks calls :
    dispatched blocks calls ->
    dispatched (ToolUseBlock id name input :: blocks)
               (ToolCall id name input outcome :: calls).

(** The user message that carries the tool results, when there are any. *)
Definition user_message (tool_results : list ToolResult) : list Message :=
  match tool_results with
  | [] => []
  | _ :: _ => [mkMessage user (ToolResults tool_results)]
  end.

(** The message chain after the tool phase of a round. *)
Definition after_tools (msgs : list Message) (response : Response)
    (calls : list Event) : list Message :=
  msgs ++ [mkMessage assistant (ResponseContent (response_content response))]
       ++ user_message (results_of calls).

(** The text a guarded model call ends in: the text of the first block,
    or the handler's message. *)
Definition answer_or (prefix : string) (outcome : Result Response) : string :=
  match outcome with
  | Ok response =>
      match content0_text response with
      | Ok text => text
      | Raise e => (prefix ++ e)%string
      end
  | Raise e => (prefix ++ e)%string
  end.

(** ** The single-round handler

    [_handle_tool_execution] is the handler of one tool round that ends
    with the final call itself.  It reads two keys of the [base_params]
    dict it is given, works on a copy of the message list, and guards
    nothing. *)

(** The [base_params] argument: the keys ["messages"] and ["system"],
    each present or not. *)
Record BaseParams : Type := mkBaseParams {
  bp_messages : option (list Message);
  bp_system : option string
}.

(** [d[key]]: the value, or the [KeyError] whose text is the quoted key. *)
Definition subscript {A : Type} (key : string) (value : option A) : Result A :=
  match value with
  | Some a => Ok a
  | None => Raise ("'" ++ key ++ "'")%string
  end.

(** The [for content_block in initial_response.content] loop of
    [_handle_tool_execution]: no [try], one accumulator. *)
Fixpoint for_tool_uses (tool_manager : ToolManager World)
    (blocks : list ContentBlock) (tool_results : list ToolResult)
    : M World (list ToolResult) :=
  match blocks with
  | [] => ret tool_results
  | content_block :: rest =>
      match content_block with
      | ToolUseBlock id name input =>
          tool_result <- execute_tool tool_manager id name input ;;
          for_tool_uses tool_manager rest
            (tool_results ++ [mkToolResult id tool_result None])
      | TextBlock _ => for_tool_uses tool_manager rest tool_results
      end
  end.

(** The local [messages] is a copy of [base_params["messages"]]: the
    appends go to the copy, not to the list of the store. *)
Definition _handle_tool_execution (self : AIGenerator World)
    (initial_response : Response) (base_params : BaseParams)
    (tool_manager : ToolManager World) : M World string :=
  base_messages <- lift (subscript "messages" (bp_messages base_params)) ;;
  let msgs :=
    base_messages ++
      [mkMessage assistant (ResponseContent (response_content initial_response))] in
  tool_results <- for_tool_uses tool_manager (response_content initial_response) [] ;;
  let msgs :=
    match tool_results with
    | [] => msgs
    | _ :: _ => msgs ++ [mkMessage user (ToolResults tool_results)]
    end in
  system_content <- lift (subscript "system" (bp_system base_params)) ;;
  final_response <- messages_create (client self)
                      (api_params self msgs system_content None None) ;;
  lift (content0_text final_response).

(** ** Runs of the loop, as traces

    [round_run] lists the ways one pass through the loop body can go and
    [rounds_run] the ways the whole of [_execute_sequential_rounds] can
    go from a given [round_count] and message chain.  They speak of the
    trace alone; [round_body_run] and [rounds_sound] below show that the
    program follows them whatever the provider and the tools do. *)

Section Runs.

Variable self : AIGenerator World.
Variable system_content : string.
Variable tools : list ToolSchema.

Definition round_params (msgs : list Message) : ApiParams :=
  api_params self msgs system_content (Some tools) (Some "auto").

Definition final_params (msgs : list Message) : ApiParams :=
  api_params self msgs system_content None None.

Inductive round_run (rc : Z) (msgs : list Message)
  : list Event -> Flow -> Z -> list Message -> Prop :=
| round_api_error e :
    round_run rc msgs
      [ApiCall (round_params msgs) (Raise e)]
      (Return ("Error generating response: " ++ e)%string) rc msgs
| round_no_tool_use response :
    stop_reason response <> "tool_use" ->
    round_run rc msgs
      [ApiCall (round_params msgs) (Ok response)]
      (Return (answer_or "Error generating response: " (Ok response)))
      (rc + 1) msgs
| round_tool_failure response calls outcome :
    stop_reason response = "tool_use" ->
    dispatched (response_content response) calls ->
    all_succeeded calls = false ->
    round_run rc msgs
      (ApiCall (round_params msgs) (Ok response) :: calls ++
         [ApiCall (final_params (after_tools msgs response calls)) outcome])
      (Return (answer_or "Error generating response: " outcome))
      (rc + 1) (after_tools msgs response calls)
| round_continue response calls :
    stop_reason response = "tool_use" ->
    dispatched (response_content response) calls ->
    all_succeeded calls = true ->
    round_run rc msgs
      (ApiCall (round_params msgs) (Ok response) :: calls)
      Continue (rc + 1) (after_tools msgs response calls).

Inductive rounds_run (max_rounds : Z) (rc : Z) (msgs : list Message)
  : list Event -> string -> Z -> list Message -> Prop :=
| rounds_exhausted outcome :
    ~ rc < max_rounds ->
    rounds_run max_rounds rc msgs
      [ApiCall (final_params msgs) outcome]
      (answer_or "Error generating final response: " outcome) rc msgs
| rounds_return tr answer rc' msgs' :
    rc < max_rounds ->
    round_run rc msgs tr (Return answer) rc' msgs' ->
    rounds_run max_rounds rc msgs tr answer rc' msgs'
| rounds_next tr1 rc1 msgs1 tr answer rc' msgs' :
    rc < max_rounds ->
    round_run rc msgs tr1 Continue rc1 msgs1 ->
    rounds_run max_rounds rc1 msgs1 tr answer rc' msgs' ->
    rounds_run max_rounds rc msgs (tr1 ++ tr) answer rc' msgs'.

End Runs.

End Program.

(** ** Outcomes of a call *)

(** The trace of a finished call. *)
Definition trace_of {A S : Type} (out : option (Result A * list Event * S))
  : list Event :=
  match out with
  | Some (_, tr, _) => tr
  | None => []
  end.

(** In every round the model asked for tools and every dispatch
    succeeded: the event is a tool-enabled model call answered with stop
    reason [tool_use], a model call without tools, or a tool call that
    returned. *)
Definition keeps_requesting_tools (ev : Event) : bool :=
  match ev with
  | ApiCall p (Ok response) =>
      if tool_enabled p then (stop_reason response =? "tool_use")%string else true
  | ApiCall p (Raise _) => negb (tool_enabled p)
  | ToolCall _ _ _ (Ok _) => true
  | ToolCall _ _ _ (Raise _) => false
  end.

(** A tool result marked as an error on the wire. *)
Definition marked_is_error (r : ToolResult) : bool :=
  match is_error r with
  | Some true => true
  | _ => false
  end.

(** The tool results a message carries. *)
Definition tool_results_of (m : Message) : list ToolResult :=
  match content m with
  | ToolResults results => results
  | _ => []
  end.

(** Some model call of the trace was handed a tool result marked as an
    error. *)
Definition reports_marked_error (tr : list Event) : bool :=
  existsb (fun c =>
             existsb (fun m => existsb marked_is_error (tool_results_of m))
                     (p_messages (fst c)))
          (api_calls tr).

(** ** Shapes of chains and traces *)

Definition role_eqb (r1 r2 : Role) : bool :=
  match r1, r2 with
  | user, user => true
  | assistant, assistant => true
  | _, _ => false
  end.

Definition other_role (r : Role) : Role :=
  match r with
  | user => assistant
  | assistant => user
  end.

(** The roles of a chain alternate, from [expected] on. *)
Fixpoint alternates (expected : Role) (msgs : list Message) : bool :=
  match msgs with
  | [] => true
  | m :: rest => role_eqb (role m) expected && alternates (other_role expected) rest
  end.

(** A chain the provider accepts: roles alternate from a user message to
    a user message. *)
Definition user_turn (msgs : list Message) : bool :=
  alternates user msgs && Nat.odd (length msgs).

(** A response that asks for tools names at least one: the event is not a
    tool-enabled model call answered with stop reason [tool_use] and no
    tool-use block. *)
Definition names_a_tool (ev : Event) : bool :=
  match ev with
  | ApiCall p (Ok response) =>
      if tool_enabled p && (stop_reason response =? "tool_use")%string
      then match tool_use_ids (response_content response) with
           | [] => false
           | _ :: _ => true
           end
      else true
  | _ => true
  end.

(** A tool-enabled model call that returned a response. *)
Definition answered_round (c : ApiParams * Result Response) : bool :=
  match c with
  | (p, Ok _) => tool_enabled p
  | (_, Raise _) => false
  end.

(** A tool-enabled model call answered with stop reason [tool_use]. *)
Definition tool_round (c : ApiParams * Result Response) : bool :=
  match c with
  | (p, Ok response) => tool_enabled p && (stop_reason response =? "tool_use")%string
  | (_, Raise _) => false
  end.

(** The number of tool-use blocks the model sent in the tool rounds of a
    list of model calls. *)
Fixpoint requested_tool_uses (calls : list (ApiParams * Result Response)) : nat :=
  match calls with
  | [] => 0%nat
  | (p, Ok response) :: rest =>
      if tool_round (p, Ok response)
      then (length (tool_use_ids (response_content response))
            + requested_tool_uses rest)%nat
      else requested_tool_uses rest
  | (_, Raise _) :: rest => requested_tool_uses rest
  end.

(** The blocks the model sent in the tool rounds of a list of model
    calls, in order. *)
Fixpoint requested_blocks (calls : list (ApiParams * Result Response))
  : list ContentBlock :=
  match calls with
  | [] => []
  | (p, Ok response) :: rest =>
      if tool_round (p, Ok response)
      then response_content response ++ requested_blocks rest
      else requested_blocks rest
  | (_, Raise _) :: rest => requested_blocks rest
  end.

(** The outcome of the model call a trace ends with. *)
Fixpoint last_outcome (tr : list Event) : option (Result Response) :=
  match tr with
  | [] => None
  | ApiCall _ o :: [] => Some o
  | _ :: rest => last_outcome rest
  end.

(** ** Scripted collaborators

    A provider and a tool manager that replay a script of outcomes, one
    per call, as a test double does; they make the runs below concrete. *)

Record Script : Type := mkScript {
  api_script : list (Result Response);
  tool_script : list (Result string)
}.

Definition scripted_client : Client Script :=
  fun _ w =>
    match api_script w with
    | [] => (Raise "StopIteration", w)
    | r :: rest => (r, mkScript rest (tool_script w))
    end.

Definition scripted_tools : ToolManager Script :=
  fun _ _ w =>
    match tool_script w with
    | [] => (Raise "StopIteration", w)
    | r :: rest => (r, mkScript (api_script w) rest)
    end.

Definition scripted_generator : AIGenerator Script :=
  mkAIGenerator scripted_client "claude-sonnet-4-20250514".

Definition search_tool : ToolSchema :=
  mkToolSchema "search_course_content" "Search course materials" "{}".

Definition search_block (id : string) : ContentBlock :=
  ToolUseBlock id "search_course_content" [("query", "MCP")].

Definition tool_use_response (id : string) : Response :=
  mkResponse "tool_use" [TextBlock "Let me search."; search_block id].

Definition text_response (text : string) : Response :=
  mkResponse "end_turn" [TextBlock text].

(** Two rounds that ask for a search, both served, and the final answer. *)
Definition two_searches : Script :=
  mkScript [Ok (tool_use_response "toolu_1"); Ok (tool_use_response "toolu_2");
            Ok (text_response "MCP is a protocol.")]
           [Ok "[MCP course - Lesson 1]"; Ok "[MCP course - Lesson 2]"].

(** A first round whose search fails, and the answer to the failure. *)
Definition failing_search : Script :=
  mkScript [Ok (tool_use_response "toolu_1");
            Ok (text_response "The search is unavailable.")]
           [Raise "backend unreachable"].

(** The run of [failing_search] from the query ["What is MCP?"]: the
    model call of the first round, and the final model call on the chain
    the failed search leaves. *)
Definition failing_search_chain : list Message :=
  [mkMessage user (Str "What is MCP?");
   mkMessage assistant
     (ResponseContent (response_content (tool_use_response "toolu_1")));
   mkMessage user
     (ToolResults
        [mkToolResult "toolu_1" "Tool execution failed: backend unreachable"
           None])].

Definition failing_search_first_call : Event :=
  ApiCall (round_params scripted_generator (system_content_of None)
             [search_tool] [mkMessage user (Str "What is MCP?")])
          (Ok (tool_use_response "toolu_1")).

Definition failing_search_final_call : Event :=
  ApiCall (final_params scripted_generator (system_content_of None)
             failing_search_chain)
          (Ok (text_response "The search is unavailable.")).

(** A provider that answers at once. *)
Definition direct_answer : Script :=
  mkScript [Ok (text_response "Paris.")] [].

(** A provider that is down. *)
Definition provider_down : Script :=
  mkScript [Raise "Connection error."] [].

(** One search that is served, and the answer that follows it. *)
Definition served_search : Script :=
  mkScript [Ok (text_response "MCP is a protocol.")]
           [Ok "[MCP course - Lesson 1]"].

(** The chain of a call that has just received its query. *)
Definition query_chain : list Message :=
  [mkMessage user (Str "What is MCP?")].

(** The call with tools and a budget of two rounds, in a scripted world. *)
Definition search_call (script : Script)
  : option (Result string * list Event * Store Script) :=
  generate_response scripted_generator "What is MCP?" None
    (Some [search_tool]) (Some scripted_tools) 2 script.

(** ** The tool phase of a round *)

#[global] Arguments String.append : simpl never.

Section ProgramFacts.

Context {World : Type}.

Lemma dispatched_only_tool_calls blocks calls :
  dispatched blocks calls -> forallb is_tool_call calls = true.
Proof.
  induction 1; simpl; auto.
Qed.

Lemma dispatched_api_calls blocks calls :
  dispatched blocks calls -> api_calls calls = [].
Proof.
  induction 1; simpl; auto.
Qed.

Lemma dispatched_ids blocks calls :
  dispatched blocks calls ->
  map tool_use_id (results_of calls) = tool_use_ids blocks.
Proof.
  induction 1 as [| | id name input outcome blocks calls _ IH]; simpl; auto.
  rewrite IH. destruct outcome; reflexivity.
Qed.

Lemma for_content_blocks_run (tm : ToolManager World) blocks :
  forall tool_results execution_success (s : Store World),
  exists calls w',
    for_content_blocks tm blocks tool_results execution_success s
    = Some (Ok (tool_results ++ results_of calls,
                execution_success && all_succeeded calls),
            calls, mkStore w' (messages s) (round_count s))
    /\ dispatched blocks calls.
Proof.
  induction blocks as [| b blocks IH]; intros acc flag s.
  - exists [], (world s). simpl. unfold ret.
    rewrite app_nil_r, andb_true_r. destruct s; simpl.
    split; [reflexivity | constructor].
  - destruct b as [text | id name input].
    + destruct (IH acc flag s) as (calls & w' & Hrun & Hd).
      exists calls, w'. split; [exact Hrun | constructor; exact Hd].
    + simpl. unfold bind at 1. unfold try_except, bind, execute_tool, ret.
      destruct (tm name input (world s)) as [[tool_result | e] w1] eqn:Htm;
        simpl.
      * destruct (IH (acc ++ [mkToolResult id tool_result None]) flag
                    (mkStore w1 (messages s) (round_count s)))
          as (calls & w' & Hrun & Hd).
        simpl in Hrun. rewrite Hrun. simpl.
        exists (ToolCall id name input (Ok tool_result) :: calls), w'.
        simpl. rewrite <- app_assoc. simpl.
        split; [reflexivity | constructor; exact Hd].
      * destruct (IH (acc ++ [mkToolResult id
                                 ("Tool execution failed: " ++ e)%string None])
                    false (mkStore w1 (messages s) (round_count s)))
          as (calls & w' & Hrun & Hd).
        simpl in Hrun. rewrite Hrun. simpl.
        exists (ToolCall id name input (Raise e) :: calls), w'.
        simpl. rewrite <- app_assoc. simpl. rewrite andb_false_r.
        split; [reflexivity | constructor; exact Hd].
Qed.

Lemma handle_tool_execution_run (response : Response) (tm : ToolManager World)
    (s : Store World) :
  exists calls w',
    _handle_tool_execution_sequential response tm s
    = Some (Ok (all_succeeded calls), calls,
            mkStore w' (after_tools (messages s) response calls) (round_count s))
    /\ dispatched (response_content response) calls.
Proof.
  unfold _handle_tool_execution_sequential.
  unfold bind at 1. unfold append_message at 1. simpl.
  unfold bind at 1.
  destruct (for_content_blocks_run tm (response_content response) [] true
              (mkStore (world s)
                 (messages s ++
                    [mkMessage assistant (ResponseContent (response_content response))])
                 (round_count s)))
    as (calls & w' & Hrun & Hd).
  rewrite Hrun. simpl.
  exists calls, w'. split; [| exact Hd].
  unfold after_tools, user_message.
  destruct (results_of calls) as [| r rs]; simpl.
  - unfold ret. rewrite !app_nil_r. reflexivity.
  - unfold bind, append_message, ret. simpl.
    rewrite !app_nil_r, <- app_assoc. reflexivity.
Qed.

(** ** One pass through the loop body *)

(** Writes the answer of a goal [round_run ... (Return a) ...] as the
    [answer_or] of the outcome [o] it came from. *)
Ltac as_answer o Htext :=
  match goal with
  | |- round_run _ _ _ _ _ _ (Return ?a) _ _ =>
      replace a with (answer_or "Error generating response: " o)
        by (unfold answer_or; rewrite ?Htext; reflexivity)
  end.

Lemma round_body_run (self : AIGenerator World) system_content tools
    (tm : ToolManager World) (s : Store World) :
  exists flow tr s',
    round_body self system_content tools tm s = Some (Ok flow, tr, s')
    /\ round_run self system_content tools (round_count s) (messages s)
         tr flow (round_count s') (messages s').
Proof.
  unfold round_body, try_except.
  unfold bind at 1. unfold get_messages at 1.
  unfold bind at 1. unfold messages_create at 1.
  fold (round_params self system_content tools (messages s)).
  destruct (client self (round_params self system_content tools (messages s))
              (world s)) as [[response | e] w1] eqn:Hcall; simpl.
  - unfold bind at 1. unfold get_round_count at 1. simpl.
    unfold bind at 1. unfold set_round_count at 1. simpl.
    destruct (String.eqb_spec (stop_reason response) "tool_use") as [Hstop | Hstop];
      simpl.
    + unfold bind at 1.
      destruct (handle_tool_execution_run response tm
                  (mkStore w1 (messages s) (round_count s + 1)))
        as (calls & w2 & Hrun & Hd).
      simpl in Hrun. rewrite Hrun. simpl.
      destruct (all_succeeded calls) eqn:Hall; simpl.
      * unfold ret. do 3 eexists. split; [reflexivity |]. simpl.
        rewrite app_nil_r. apply round_continue; assumption.
      * unfold bind at 1. unfold get_messages at 1. simpl.
        unfold bind at 1. unfold messages_create at 1. simpl.
        fold (final_params self system_content
                (after_tools (messages s) response calls)).
        destruct (client self
                    (final_params self system_content
                       (after_tools (messages s) response calls)) w2)
          as [[final_response | e] w3] eqn:Hfinal; simpl.
        -- unfold bind, lift, ret.
           destruct (content0_text final_response) as [text | e] eqn:Htext;
             simpl; do 3 eexists; (split; [reflexivity |]); simpl;
             rewrite ?app_nil_r;
             as_answer (Ok final_response) Htext;
             apply round_tool_failure; assumption.
        -- unfold ret. do 3 eexists. split; [reflexivity |]. simpl.
           rewrite ?app_nil_r.
           apply (round_tool_failure self system_content tools
                    (round_count s) (messages s) _ (Raise e) Hstop Hd Hall).
    + unfold bind, lift, ret.
      destruct (content0_text response) as [text | e] eqn:Htext; simpl;
        do 3 eexists; (split; [reflexivity |]); simpl;
        as_answer (Ok response) Htext;
        apply round_no_tool_use; assumption.
  - unfold ret. do 3 eexists. split; [reflexivity |]. simpl.
    apply round_api_error.
Qed.

(** ** The whole loop *)

Lemma after_loop_final_call (self : AIGenerator World) system_content
    (s : Store World) :
  exists outcome w',
    after_loop self system_content None s
    = Some (Ok (answer_or "Error generating final response: " outcome),
            [ApiCall (final_params self system_content (messages s)) outcome],
            mkStore w' (messages s) (round_count s)).
Proof.
  unfold after_loop, try_except, bind, get_messages, messages_create, lift, ret.
  fold (final_params self system_content (messages s)).
  destruct (client self (final_params self system_content (messages s)) (world s))
    as [[final_response | e] w1] eqn:Hcall; simpl.
  - exists (Ok final_response), w1. unfold answer_or.
    destruct (content0_text final_response); reflexivity.
  - exists (Raise e), w1. reflexivity.
Qed.

Lemma round_run_continue (self : AIGenerator World) system_content tools
    rc msgs tr rc' msgs' :
  round_run self system_content tools rc msgs tr Continue rc' msgs' ->
  rc' = rc + 1.
Proof.
  inversion 1; reflexivity.
Qed.

Lemma rounds_sound (self : AIGenerator World) system_content tools
    (tm : ToolManager World) max_rounds :
  forall fuel (s : Store World),
    (Z.to_nat (max_rounds - round_count s) <= fuel)%nat ->
    exists answer tr s',
      bind (while_rounds fuel self system_content tools tm max_rounds)
           (after_loop self system_content) s
      = Some (Ok answer, tr, s')
      /\ rounds_run self system_content tools max_rounds
           (round_count s) (messages s) tr answer (round_count s') (messages s').
Proof.
  assert (Hexit : forall fuel (s : Store World),
             ~ round_count s < max_rounds ->
             exists answer tr s',
               bind (while_rounds fuel self system_content tools tm max_rounds)
                    (after_loop self system_content) s
               = Some (Ok answer, tr, s')
               /\ rounds_run self system_content tools max_rounds
                    (round_count s) (messages s) tr answer
                    (round_count s') (messages s')).
  { intros fuel s Hrc.
    destruct (after_loop_final_call self system_content s) as (o & w' & Hfin).
    unfold bind at 1.
    replace (while_rounds fuel self system_content tools tm max_rounds s)
      with (Some (Ok (@None string), @nil Event, s)).
    - rewrite Hfin. do 3 eexists. split; [reflexivity |]. simpl.
      apply rounds_exhausted. exact Hrc.
    - destruct fuel; simpl; unfold bind, get_round_count; simpl;
        destruct (Z.ltb_spec (round_count s) max_rounds); try lia; reflexivity. }
  induction fuel as [| fuel IH]; intros s Hfuel.
  - apply Hexit. lia.
  - destruct (Z_lt_dec (round_count s) max_rounds) as [Hlt | Hge];
      [| apply Hexit; exact Hge].
    destruct (round_body_run self system_content tools tm s)
      as (flow & tr1 & s1 & Hbody & Hround).
    unfold bind at 1. simpl while_rounds.
    unfold bind at 1. unfold get_round_count at 1. simpl.
    destruct (Z.ltb_spec (round_count s) max_rounds) as [_ | Hno]; [| lia].
    unfold bind at 1. rewrite Hbody.
    destruct flow as [answer |].
    + unfold ret, after_loop. simpl.
      do 3 eexists. split; [reflexivity |].
      rewrite !app_nil_r. apply rounds_return; assumption.
    + pose proof (round_run_continue Hround) as Hrc.
      destruct (IH s1) as (answer & tr & s' & Hrest & Hruns); [lia |].
      unfold bind in Hrest.
      destruct (while_rounds fuel self system_content tools tm max_rounds s1)
        as [[[[returned | e] t1] s2] |]; try discriminate.
      destruct (after_loop self system_content returned s2)
        as [[[r2 t2] s3] |]; try discriminate.
      inversion Hrest; subst.
      do 3 eexists. split; [reflexivity |].
      rewrite <- app_assoc. eapply rounds_next; eassumption.
Qed.

(** [_execute_sequential_rounds] always returns, with an answer and never
    an exception, and its trace is a run of the rounds from 0. *)
Lemma execute_sequential_rounds_run (self : AIGenerator World) system_content
    tools (tm : ToolManager World) max_rounds (s : Store World) :
  exists answer tr s',
    _execute_sequential_rounds self system_content tools tm max_rounds s
    = Some (Ok answer, tr, s')
    /\ rounds_run self system_content tools max_rounds 0 (messages s)
         tr answer (round_count s') (messages s').
Proof.
  unfold _execute_sequential_rounds.
  unfold bind at 1. unfold set_round_count at 1.
  destruct (@rounds_sound self system_content tools tm max_rounds
              (Z.to_nat max_rounds) (mkStore (world s) (messages s) 0))
    as (answer & tr & s' & Hrun & Hruns).
  { simpl. lia. }
  change (fun returned : option string => after_loop self system_content returned)
    with (after_loop self system_content).
  rewrite Hrun. simpl in Hruns.
  do 3 eexists. split; [reflexivity | exact Hruns].
Qed.

(** ** Facts about traces *)

Lemma split_before_last {A : Type} (pre post l : list A) (x y : A) :
  pre ++ x :: post = l ++ [y] -> x <> y ->
  exists rest, post = rest ++ [y] /\ l = pre ++ x :: rest.
Proof.
  intros Heq Hxy.
  destruct (exists_last (l := x :: post)) as (rest' & z & Hlast);
    [discriminate |].
  destruct post as [| p post].
  - exfalso. apply Hxy.
    apply (app_inj_tail pre l x y) in Heq. tauto.
  - destruct (exists_last (l := p :: post)) as (rest & z' & Hpost);
      [discriminate |].
    rewrite Hpost in Heq.
    change (pre ++ x :: rest ++ [z']) with (pre ++ (x :: rest) ++ [z']) in Heq.
    rewrite app_assoc in Heq.
    apply app_inj_tail in Heq. destruct Heq as [Hl Hz]. subst z'.
    exists rest. split; [exact Hpost | symmetry; exact Hl].
Qed.

Lemma split_past_prefix {A : Type} (l1 : list A) :
  forall (pre post l2 : list A) (x : A),
    ~ In x l1 -> pre ++ x :: post = l1 ++ l2 ->
    exists pre', pre = l1 ++ pre' /\ l2 = pre' ++ x :: post.
Proof.
  induction l1 as [| a l1 IH]; intros pre post l2 x Hnot Heq.
  - exists pre. split; [reflexivity | symmetry; exact Heq].
  - destruct pre as [| b pre]; simpl in Heq; inversion Heq; subst.
    + exfalso. apply Hnot. left. reflexivity.
    + destruct (IH pre post l2 x) as (pre' & Hpre & Hl2); auto.
      * intro Hin. apply Hnot. right. exact Hin.
      * exists pre'. split; [rewrite Hpre; reflexivity | exact Hl2].
Qed.

Lemma all_succeeded_no_raise calls id name input e :
  all_succeeded calls = true -> ~ In (ToolCall id name input (Raise e)) calls.
Proof.
  induction calls as [| c calls IH]; simpl; intros Hall Hin; [exact Hin |].
  destruct Hin as [Hc | Hin].
  - subst c. discriminate.
  - destruct c as [p o | i n a [t | e']]; try discriminate Hall;
      apply IH; assumption.
Qed.

Lemma only_tool_calls_no_api_call calls p o :
  forallb is_tool_call calls = true -> ~ In (ApiCall p o) calls.
Proof.
  intros Hall Hin. rewrite forallb_forall in Hall.
  apply Hall in Hin. discriminate.
Qed.

Lemma failed_dispatch_result calls id name input e :
  In (ToolCall id name input (Raise e)) calls ->
  In (mkToolResult id ("Tool execution failed: " ++ e)%string None)
     (results_of calls).
Proof.
  induction calls as [| c calls IH]; simpl; intros Hin; [exact Hin |].
  destruct Hin as [Hc | Hin].
  - subst c. left. reflexivity.
  - destruct c; [| right]; auto.
Qed.

Section RunFacts.

Variable self : AIGenerator World.
Variable system_content : string.
Variable tools : list ToolSchema.

(** A run starts with a model call on the chain it was given. *)
Lemma rounds_run_head max_rounds rc msgs tr answer rc' msgs' :
  rounds_run self system_content tools max_rounds rc msgs tr answer rc' msgs' ->
  exists p o rest, tr = ApiCall p o :: rest /\ p_messages p = msgs.
Proof.
  intros Hrun.
  destruct Hrun as [o Hrc | tr answer rc' msgs' Hrc Hround
                   | tr1 rc1 msgs1 tr answer rc' msgs' Hrc Hround Hrest].
  - do 3 eexists. split; reflexivity.
  - inversion Hround; subst; do 3 eexists; split; reflexivity.
  - inversion Hround; subst. do 3 eexists. split; reflexivity.
Qed.

(** After a dispatch that raised, the run has the rest of that round's
    dispatches and one model call without tools, whose text is the
    answer. *)
Lemma tool_failure_ends_run max_rounds rc msgs tr answer rc' msgs' :
  rounds_run self system_content tools max_rounds rc msgs tr answer rc' msgs' ->
  forall pre id name input e post,
    tr = pre ++ ToolCall id name input (Raise e) :: post ->
    exists rest msgs0 response calls outcome,
      post = rest ++
               [ApiCall (final_params self system_content
                           (after_tools msgs0 response calls)) outcome]
      /\ forallb is_tool_call rest = true
      /\ In (ToolCall id name input (Raise e)) calls
      /\ answer = answer_or "Error generating response: " outcome.
Proof.
  induction 1 as [rc msgs o Hrc | rc msgs tr answer rc' msgs' Hrc Hround
                 | rc msgs tr1 rc1 msgs1 tr answer rc' msgs' Hrc Hround Hrest IH].
  - intros pre id name input e post Heq.
    destruct pre as [| x [| y pre]]; simpl in Heq; discriminate Heq.
  - inversion Hround as [e0 | response Hstop | response calls outcome Hstop Hd Hall
                        | ]; subst;
      intros pre id name input e post Heq;
      try (destruct pre as [| x [| y pre]]; simpl in Heq; discriminate Heq).
    destruct pre as [| x pre]; simpl in Heq; inversion Heq as [[Hx Htail]].
    symmetry in Htail. apply split_before_last in Htail; [| discriminate].
    destruct Htail as (rest & Hpost & Hcalls).
    exists rest, msgs, response, calls, outcome.
    repeat split; auto.
    + apply dispatched_only_tool_calls in Hd.
      rewrite Hcalls in Hd. rewrite forallb_app in Hd.
      apply andb_true_iff in Hd. destruct Hd as [_ Hd].
      simpl in Hd. exact Hd.
    + rewrite Hcalls. apply in_elt.
  - inversion Hround as [| | | response calls Hstop Hd Hall]; subst.
    intros pre id name input e post Heq.
    symmetry in Heq. apply split_past_prefix in Heq.
    + destruct Heq as (pre' & _ & Htr). eapply IH. exact Htr.
    + simpl. intros [Hin | Hin]; [discriminate |].
      revert Hin. apply all_succeeded_no_raise. exact Hall.
Qed.


(** A tool-enabled model call answered with [tool_use] is followed by
    the dispatches of its blocks and then by a model call on the chain
    extended with the response and the results. *)
Lemma tool_round_answered max_rounds rc msgs tr answer rc' msgs' :
  rounds_run self system_content tools max_rounds rc msgs tr answer rc' msgs' ->
  forall pre p response post,
    tr = pre ++ ApiCall p (Ok response) :: post ->
    tool_enabled p = true ->
    stop_reason response = "tool_use" ->
    exists calls p' o' rest,
      post = calls ++ ApiCall p' o' :: rest
      /\ dispatched (response_content response) calls
      /\ p_messages p' = after_tools (p_messages p) response calls.
Proof.
  induction 1 as [rc msgs o Hrc | rc msgs tr answer rc' msgs' Hrc Hround
                 | rc msgs tr1 rc1 msgs1 tr answer rc' msgs' Hrc Hround Hrest IH].
  - intros pre p response post Heq Htools Hstop.
    destruct pre as [| x [| y pre]]; simpl in Heq; try discriminate Heq.
    inversion Heq; subst. discriminate Htools.
  - inversion Hround as [e0 | response0 Hstop0
                        | response0 calls outcome Hstop0 Hd Hall | ]; subst;
      intros pre p response post Heq Htools Hstop.
    + destruct pre as [| x [| y pre]]; simpl in Heq; discriminate Heq.
    + destruct pre as [| x [| y pre]]; simpl in Heq; try discriminate Heq.
      inversion Heq; subst. contradiction.
    + destruct pre as [| x pre]; simpl in Heq; inversion Heq as [[Hx Htail]].
      * exists calls,
          (final_params self system_content (after_tools msgs response0 calls)),
          outcome, [].
        subst. repeat split; auto.
      * symmetry in Htail. apply split_past_prefix in Htail.
        -- destruct Htail as (pre' & _ & Hlast).
           destruct pre' as [| y [| z pre']]; simpl in Hlast;
             try discriminate Hlast.
           inversion Hlast; subst. discriminate Htools.
        -- apply only_tool_calls_no_api_call.
           eapply dispatched_only_tool_calls. exact Hd.
  - inversion Hround as [| | | response0 calls Hstop0 Hd Hall]; subst.
    intros pre p response post Heq Htools Hstop.
    destruct pre as [| x pre]; simpl in Heq; inversion Heq as [[Hx Htail]].
    + destruct (rounds_run_head Hrest) as (p' & o' & rest & Htr & Hmsgs).
      exists calls, p', o', rest. subst. repeat split; auto.
    + symmetry in Htail. apply split_past_prefix in Htail.
      * destruct Htail as (pre' & _ & Htr). eapply IH; eassumption.
      * apply only_tool_calls_no_api_call.
        eapply dispatched_only_tool_calls. exact Hd.
Qed.

Lemma api_calls_app (tr1 tr2 : list Event) :
  api_calls (tr1 ++ tr2) = api_calls tr1 ++ api_calls tr2.
Proof.
  induction tr1 as [| [p o | id name input o] tr1 IH]; simpl; auto.
  rewrite IH. reflexivity.
Qed.

Lemma dispatched_all_succeeded blocks calls :
  dispatched blocks calls ->
  forallb keeps_requesting_tools calls = true ->
  all_succeeded calls = true.
Proof.
  induction 1 as [| | id name input outcome blocks calls _ IH]; simpl; auto.
  destruct outcome; simpl; [exact IH | discriminate].
Qed.

(** When every round asks for tools and every dispatch succeeds, the run
    is [max_rounds - rc] tool-enabled model calls and then the final
    call without tools. *)
Lemma rounds_run_exhausts max_rounds rc msgs tr answer rc' msgs' :
  rounds_run self system_content tools max_rounds rc msgs tr answer rc' msgs' ->
  rc <= max_rounds ->
  forallb keeps_requesting_tools tr = true ->
  exists pre outcome,
    tr = pre ++ [ApiCall (final_params self system_content msgs') outcome]
    /\ length (api_calls pre) = Z.to_nat (max_rounds - rc)
    /\ forallb (fun c => tool_enabled (fst c)) (api_calls pre) = true
    /\ answer = answer_or "Error generating final response: " outcome
    /\ rc' = max_rounds.
Proof.
  induction 1 as [rc msgs o Hrc | rc msgs tr answer rc' msgs' Hrc Hround
                 | rc msgs tr1 rc1 msgs1 tr answer rc' msgs' Hrc Hround Hrest IH];
    intros Hle Hall.
  - exists [], o. simpl. repeat split; auto; lia.
  - exfalso.
    inversion Hround as [e0 | response Hstop | response calls outcome Hstop Hd Hfail
                        | ]; subst; simpl in Hall.
    + discriminate Hall.
    + apply String.eqb_neq in Hstop. rewrite Hstop in Hall. discriminate Hall.
    + apply andb_true_iff in Hall. destruct Hall as [_ Hall].
      rewrite forallb_app in Hall. apply andb_true_iff in Hall.
      destruct Hall as [Hall _].
      rewrite (dispatched_all_succeeded Hd Hall) in Hfail. discriminate Hfail.
  - inversion Hround as [| | | response calls Hstop Hd Hok]; subst.
    rewrite forallb_app in Hall. apply andb_true_iff in Hall.
    destruct Hall as [_ Hall].
    destruct (IH ltac:(lia) Hall) as (pre & outcome & Htr & Hlen & Hen & Hans & Hrc').
    exists ((ApiCall (round_params self system_content tools msgs) (Ok response)
               :: calls) ++ pre), outcome.
    repeat split; auto.
    + rewrite Htr, app_assoc. reflexivity.
    + rewrite api_calls_app. simpl. rewrite (dispatched_api_calls Hd). simpl.
      rewrite Hlen. lia.
    + rewrite api_calls_app. simpl. rewrite (dispatched_api_calls Hd). simpl.
      exact Hen.
Qed.

End RunFacts.

(** ** The two paths of [generate_response] *)

Lemma generate_response_run (self : AIGenerator World) query history tools
    (tool_manager : option (ToolManager World)) max_rounds (w : World) :
  (exists tl tm answer tr s',
      tools = Some tl /\ tl <> [] /\ tool_manager = Some tm
      /\ generate_response self query history tools tool_manager max_rounds w
         = Some (Ok answer, tr, s')
      /\ rounds_run self (system_content_of history) tl max_rounds 0
           [mkMessage user (Str query)] tr answer (round_count s') (messages s'))
  \/
  ((tools = None \/ tools = Some [] \/ tool_manager = None)
   /\ exists outcome w',
       generate_response self query history tools tool_manager max_rounds w
       = Some (match outcome with
               | Ok response => content0_text response
               | Raise e => Raise e
               end,
               [ApiCall (final_params self (system_content_of history)
                           [mkMessage user (Str query)]) outcome],
               mkStore w' [mkMessage user (Str query)] 0)).
Proof.
  assert (Hsingle : exists outcome w',
             (msgs <- get_messages ;;
              response <- messages_create (client self)
                            (api_params self msgs (system_content_of history)
                               None None) ;;
              lift (content0_text response))
               (mkStore w [mkMessage user (Str query)] 0)
             = Some (match outcome with
                     | Ok response => content0_text response
                     | Raise e => Raise e
                     end,
                     [ApiCall (final_params self (system_content_of history)
                                 [mkMessage user (Str query)]) outcome],
                     mkStore w' [mkMessage user (Str query)] 0)).
  { unfold bind, get_messages, messages_create, lift. simpl.
    fold (final_params self (system_content_of history)
            [mkMessage user (Str query)]).
    destruct (client self
                (final_params self (system_content_of history)
                   [mkMessage user (Str query)]) w)
      as [[response | e] w1]; simpl.
    - exists (Ok response), w1. reflexivity.
    - exists (Raise e), w1. reflexivity. }
  unfold generate_response.
  destruct tools as [[| t ts] |].
  - right. split; [right; left; reflexivity | exact Hsingle].
  - destruct tool_manager as [tm |].
    + left.
      destruct (execute_sequential_rounds_run self (system_content_of history)
                  (t :: ts) tm max_rounds
                  (mkStore w [mkMessage user (Str query)] 0))
        as (answer & tr & s' & Hrun & Hruns).
      exists (t :: ts), tm, answer, tr, s'.
      repeat split; auto. discriminate.
    + right. split; [right; right; reflexivity | exact Hsingle].
  - right. split; [left; reflexivity |].
    destruct tool_manager; exact Hsingle.
Qed.


End ProgramFacts.

(** ** Properties of a call of [generate_response] *)

Lemma api_calls_in (tr : list Event) p o :
  In (p, o) (api_calls tr) -> In (ApiCall p o) tr.
Proof.
  induction tr as [| [p' o' | id name input o'] tr IH]; simpl; auto.
  intros [Hp | Hin]; [left; inversion Hp; reflexivity | right; auto].
Qed.

Lemma user_message_in (r : ToolResult) (results : list ToolResult) :
  In r results -> In (mkMessage user (ToolResults results)) (user_message results).
Proof.
  destruct results; simpl; [tauto | auto].
Qed.

(** The text of a response is the text of its first block. *)
Lemma content0_text_first_block (response : Response) text blocks :
  response_content response = TextBlock text :: blocks ->
  content0_text response = Ok text.
Proof.
  unfold content0_text. intros Hblocks. rewrite Hblocks. reflexivity.
Qed.

Lemma answer_or_first_block prefix (response : Response) text blocks :
  response_content response = TextBlock text :: blocks ->
  answer_or prefix (Ok response) = text.
Proof.
  intros Hblocks. unfold answer_or.
  rewrite (content0_text_first_block _ Hblocks). reflexivity.
Qed.

Lemma last_outcome_app (pre : list Event) p o :
  last_outcome (pre ++ [ApiCall p o]) = Some o.
Proof.
  induction pre as [| ev pre IH]; [reflexivity |].
  simpl app. simpl last_outcome. rewrite IH.
  destruct (pre ++ [ApiCall p o]) eqn:Hnil.
  - destruct pre; discriminate Hnil.
  - destruct ev; reflexivity.
Qed.

(** C1. With a non-empty tool list and a tool manager, when every round up
    to the budget answers with stop reason [tool_use] and every dispatch
    succeeds, the call makes exactly [max_rounds] tool-enabled model
    calls, then exactly one model call without tools ([max_rounds + 1]
    model calls in all), and returns the text of that last call: when
    the response of the last call starts with a text block, the call
    returns the text of that block. *)
Theorem budget_of_tool_rounds_then_final_call (World : Type)
    (self : AIGenerator World) (query : string) (history : option string)
    (tools : list ToolSchema) (tm : ToolManager World) (max_rounds : Z)
    (w : World) :
  tools <> [] ->
  0 <= max_rounds ->
  forallb keeps_requesting_tools
    (trace_of (generate_response self query history (Some tools) (Some tm)
                 max_rounds w)) = true ->
  exists pre final outcome s',
    generate_response self query history (Some tools) (Some tm) max_rounds w
    = Some (Ok (answer_or "Error generating final response: " outcome),
            pre ++ [ApiCall final outcome], s')
    /\ Z.of_nat (length (api_calls pre)) = max_rounds
    /\ forallb (fun c => tool_enabled (fst c)) (api_calls pre) = true
    /\ p_tools final = None
    /\ p_tool_choice final = None
    /\ Z.of_nat (length (api_calls (pre ++ [ApiCall final outcome])))
       = max_rounds + 1
    /\ forall response text blocks,
         outcome = Ok response ->
         response_content response = TextBlock text :: blocks ->
         generate_response self query history (Some tools) (Some tm) max_rounds w
         = Some (Ok text, pre ++ [ApiCall final outcome], s').
Proof.
  intros Htools Hmax Hall.
  destruct (generate_response_run self query history (Some tools) (Some tm)
              max_rounds w)
    as [(tl & tm' & answer & tr & s' & Htl & _ & _ & Hrun & Hruns)
       | ([H | [H | H]] & _)]; try discriminate H.
  - rewrite Hrun in Hall |- *. simpl in Hall.
    destruct (rounds_run_exhausts Hruns Hmax Hall)
      as (pre & outcome & Htr & Hlen & Hen & Hans & _).
    exists pre, (final_params self (system_content_of history) (messages s')),
      outcome, s'.
    subst tr answer. repeat split; auto.
    + rewrite Hlen. lia.
    + rewrite api_calls_app, length_app. simpl. lia.
    + intros r text blocks Ho Hblocks. subst outcome.
      rewrite (answer_or_first_block _ _ Hblocks). reflexivity.
  - inversion H. contradiction.
Qed.

Lemma budget_of_tool_rounds_then_final_call_witness :
  exists pre final s',
    generate_response scripted_generator "What is MCP?" None
      (Some [search_tool]) (Some scripted_tools) 2 two_searches
    = Some (Ok "MCP is a protocol.",
            pre ++ [ApiCall final (Ok (text_response "MCP is a protocol."))], s')
    /\ Z.of_nat (length (api_calls pre)) = 2
    /\ forallb (fun c => tool_enabled (fst c)) (api_calls pre) = true
    /\ p_tools final = None
    /\ p_tool_choice final = None.
Proof.
  destruct (@budget_of_tool_rounds_then_final_call Script scripted_generator
              "What is MCP?" None [search_tool] scripted_tools 2 two_searches)
    as (pre & final & outcome & s' & Hrun & Hlen & Hen & Ht & Hc & _ & Htext);
    [discriminate | lia | vm_compute; reflexivity |].
  assert (Hlast : last_outcome
                    (trace_of
                       (generate_response scripted_generator "What is MCP?" None
                          (Some [search_tool]) (Some scripted_tools) 2
                          two_searches))
                  = Some (Ok (text_response "MCP is a protocol.")))
    by (vm_compute; reflexivity).
  rewrite Hrun in Hlast. unfold trace_of in Hlast.
  rewrite last_outcome_app in Hlast. inversion Hlast as [Houtcome].
  exists pre, final, s'. rewrite <- Houtcome.
  split; [apply (Htext (text_response "MCP is a protocol.")
                   "MCP is a protocol." []); [exact Houtcome | reflexivity] |].
  repeat split; assumption.
Defined.

(** C2. When a tool dispatch raises, what follows it in the call is the
    rest of that round's dispatches and exactly one model call, made
    without tools; the call returns the text of that model call (the
    text of the first block of its response, when that is a text block),
    whatever is left of the round budget, and no further round is run. *)
Theorem tool_failure_forces_final_call (World : Type)
    (self : AIGenerator World) (query : string) (history : option string)
    (tools : option (list ToolSchema)) (tool_manager : option (ToolManager World))
    (max_rounds : Z) (w : World)
    (pre post : list Event) (id name : string) (input : ToolInput) (e : string) :
  trace_of (generate_response self query history tools tool_manager max_rounds w)
  = pre ++ ToolCall id name input (Raise e) :: post ->
  exists rest final outcome s',
    post = rest ++ [ApiCall final outcome]
    /\ forallb is_tool_call rest = true
    /\ p_tools final = None
    /\ p_tool_choice final = None
    /\ generate_response self query history tools tool_manager max_rounds w
       = Some (Ok (answer_or "Error generating response: " outcome),
               pre ++ ToolCall id name input (Raise e) :: post, s')
    /\ forall response text blocks,
         outcome = Ok response ->
         response_content response = TextBlock text :: blocks ->
         generate_response self query history tools tool_manager max_rounds w
         = Some (Ok text, pre ++ ToolCall id name input (Raise e) :: post, s').
Proof.
  intros Htrace.
  destruct (generate_response_run self query history tools tool_manager
              max_rounds w)
    as [(tl & tm & answer & tr & s' & _ & _ & _ & Hrun & Hruns)
       | (_ & outcome & w' & Hrun)];
    rewrite Hrun in Htrace |- *; simpl in Htrace.
  - destruct (tool_failure_ends_run Hruns _ _ _ _ _ _ Htrace)
      as (rest & msgs0 & response & calls & outcome & Hpost & Hrest & _ & Hans).
    exists rest,
      (final_params self (system_content_of history)
         (after_tools msgs0 response calls)),
      outcome, s'.
    subst tr answer. repeat split; auto.
    intros r text blocks Ho Hblocks. subst outcome.
    rewrite (answer_or_first_block _ _ Hblocks). reflexivity.
  - destruct pre as [| x [| y pre]]; simpl in Htrace; discriminate Htrace.
Qed.

Lemma tool_failure_forces_final_call_witness :
  exists rest final s',
    [failing_search_final_call]
    = rest ++ [ApiCall final (Ok (text_response "The search is unavailable."))]
    /\ forallb is_tool_call rest = true
    /\ p_tools final = None
    /\ p_tool_choice final = None
    /\ generate_response scripted_generator "What is MCP?" None
         (Some [search_tool]) (Some scripted_tools) 2 failing_search
       = Some (Ok "The search is unavailable.",
               [failing_search_first_call]
               ++ ToolCall "toolu_1" "search_course_content" [("query", "MCP")]
                    (Raise "backend unreachable")
               :: [failing_search_final_call],
               s').
Proof.
  destruct (@tool_failure_forces_final_call Script scripted_generator
              "What is MCP?" None (Some [search_tool]) (Some scripted_tools) 2
              failing_search [failing_search_first_call]
              [failing_search_final_call] "toolu_1" "search_course_content"
              [("query", "MCP")] "backend unreachable")
    as (rest & final & outcome & s' & Hpost & Hrest & Ht & Hc & _ & Htext);
    [vm_compute; reflexivity |].
  pose proof (f_equal last_outcome Hpost) as Hlast.
  rewrite last_outcome_app in Hlast. simpl in Hlast.
  inversion Hlast as [Houtcome].
  exists rest, final, s'. rewrite Houtcome.
  repeat split; try assumption.
  apply (Htext (text_response "The search is unavailable.")
           "The search is unavailable." []);
    [symmetry; exact Houtcome | reflexivity].
Defined.

(** C4. Without a tool list, with an empty one, or without a tool
    manager, the call makes exactly one model call, which carries no
    tools, and what it returns is the text of the first content block of
    the response: when the response starts with a text block, the call
    returns the text of that block as it is. *)
Theorem no_tools_single_call (World : Type)
    (self : AIGenerator World) (query : string) (history : option string)
    (tools : option (list ToolSchema)) (tool_manager : option (ToolManager World))
    (max_rounds : Z) (w : World) :
  tools = None \/ tools = Some [] \/ tool_manager = None ->
  exists params outcome s',
    generate_response self query history tools tool_manager max_rounds w
    = Some (match outcome with
            | Ok response => content0_text response
            | Raise e => Raise e
            end,
            [ApiCall params outcome], s')
    /\ p_tools params = None
    /\ p_tool_choice params = None
    /\ p_messages params = [mkMessage user (Str query)]
    /\ forall response text blocks,
         outcome = Ok response ->
         response_content response = TextBlock text :: blocks ->
         generate_response self query history tools tool_manager max_rounds w
         = Some (Ok text, [ApiCall params outcome], s').
Proof.
  intros Hnone.
  destruct (generate_response_run self query history tools tool_manager
              max_rounds w)
    as [(tl & tm & answer & tr & s' & Htl & Hne & Htm & _)
       | (_ & outcome & w' & Hrun)].
  - exfalso. destruct Hnone as [H | [H | H]]; rewrite H in *; try discriminate.
    inversion Htl as [Hnil]. apply Hne. symmetry. exact Hnil.
  - rewrite Hrun. do 3 eexists. split; [reflexivity |].
    repeat split; try reflexivity.
    intros response text blocks Ho Hblocks. subst outcome.
    rewrite (content0_text_first_block _ Hblocks). reflexivity.
Qed.

Lemma no_tools_single_call_witness :
  exists params s',
    generate_response scripted_generator "Capital of France?" None
      (Some []) (Some scripted_tools) 2 direct_answer
    = Some (Ok "Paris.", [ApiCall params (Ok (text_response "Paris."))], s')
    /\ p_tools params = None
    /\ p_tool_choice params = None
    /\ p_messages params = [mkMessage user (Str "Capital of France?")].
Proof.
  destruct (@no_tools_single_call Script scripted_generator "Capital of France?"
              None (Some []) (Some scripted_tools) 2 direct_answer)
    as (params & outcome & s' & Hrun & Ht & Hc & Hm & Htext);
    [right; left; reflexivity |].
  assert (Hlast : last_outcome
                    (trace_of
                       (generate_response scripted_generator "Capital of France?"
                          None (Some []) (Some scripted_tools) 2 direct_answer))
                  = Some (Ok (text_response "Paris.")))
    by (vm_compute; reflexivity).
  rewrite Hrun in Hlast. simpl in Hlast. inversion Hlast as [Houtcome].
  exists params, s'. rewrite <- Houtcome.
  split; [apply (Htext (text_response "Paris.") "Paris." []);
          [exact Houtcome | reflexivity] |].
  repeat split; assumption.
Defined.

(** C5. When the response of the first round has a stop reason other
    than [tool_use], that model call is the whole trace (no tool is
    dispatched, one model call is made), [round_count] ends at 1 and the
    text of that response is returned: when the response starts with a
    text block, the call returns the text of that block. *)
Theorem first_round_without_tool_use (World : Type)
    (self : AIGenerator World) (query : string) (history : option string)
    (tools : list ToolSchema) (tm : ToolManager World) (max_rounds : Z)
    (w : World) (params : ApiParams) (response : Response) (rest : list Event) :
  tools <> [] ->
  0 < max_rounds ->
  trace_of (generate_response self query history (Some tools) (Some tm)
              max_rounds w)
  = ApiCall params (Ok response) :: rest ->
  stop_reason response <> "tool_use" ->
  exists s',
    generate_response self query history (Some tools) (Some tm) max_rounds w
    = Some (Ok (answer_or "Error generating response: " (Ok response)),
            [ApiCall params (Ok response)], s')
    /\ round_count s' = 1
    /\ tool_enabled params = true
    /\ forall text blocks,
         response_content response = TextBlock text :: blocks ->
         generate_response self query history (Some tools) (Some tm) max_rounds w
         = Some (Ok text, [ApiCall params (Ok response)], s').
Proof.
  intros Htools Hmax Htrace Hstop.
  destruct (generate_response_run self query history (Some tools) (Some tm)
              max_rounds w)
    as [(tl & tm' & answer & tr & s' & _ & _ & _ & Hrun & Hruns)
       | ([H | [H | H]] & _)]; try discriminate H.
  - rewrite Hrun in Htrace |- *. simpl in Htrace. exists s'. subst tr.
    inversion Hruns as [o Hrc | tr0 answer0 rc0 msgs0 Hrc Hround
                       | tr1 rc1 msgs1 tr0 answer0 rc0 msgs0 Hrc Hround Hrest];
      subst.
    + lia.
    + inversion Hround; subst; try contradiction.
      repeat split; auto.
      intros text blocks Hblocks.
      rewrite (content0_text_first_block _ Hblocks). reflexivity.
    + inversion Hround; subst.
      match goal with
      | H : _ ++ _ = _ :: _ |- _ => simpl in H; inversion H; subst
      end.
      contradiction.
  - inversion H. contradiction.
Qed.

Lemma first_round_without_tool_use_witness :
  exists s',
    generate_response scripted_generator "Capital of France?" None
      (Some [search_tool]) (Some scripted_tools) 2 direct_answer
    = Some (Ok "Paris.",
            [ApiCall (round_params scripted_generator (system_content_of None)
                        [search_tool] [mkMessage user (Str "Capital of France?")])
               (Ok (text_response "Paris."))], s')
    /\ round_count s' = 1
    /\ tool_enabled
         (round_params scripted_generator (system_content_of None)
            [search_tool] [mkMessage user (Str "Capital of France?")]) = true.
Proof.
  destruct (@first_round_without_tool_use Script scripted_generator
              "Capital of France?" None [search_tool] scripted_tools 2
              direct_answer
              (round_params scripted_generator (system_content_of None)
                 [search_tool] [mkMessage user (Str "Capital of France?")])
              (text_response "Paris.") [])
    as (s' & _ & Hcount & Hen & Htext);
    [discriminate | lia | vm_compute; reflexivity | discriminate |].
  exists s'.
  split; [apply (Htext "Paris." []); reflexivity |].
  split; assumption.
Defined.

(** C6. A tool-enabled model call answered with stop reason [tool_use]
    is followed by one dispatch for each tool-use block of the response,
    in order, and then by the next model call; the results carry the ids
    of the blocks, one result for each block, and the chain of that next
    call is the chain of the round, the assistant message with the
    response content and the one user message with all the results.
    (A response without tool-use blocks has no results and gets no user
    message.) *)
Theorem tool_use_blocks_answered (World : Type)
    (self : AIGenerator World) (query : string) (history : option string)
    (tools : option (list ToolSchema)) (tool_manager : option (ToolManager World))
    (max_rounds : Z) (w : World)
    (pre post : list Event) (params : ApiParams) (response : Response) :
  trace_of (generate_response self query history tools tool_manager max_rounds w)
  = pre ++ ApiCall params (Ok response) :: post ->
  tool_enabled params = true ->
  stop_reason response = "tool_use" ->
  exists calls next outcome rest,
    post = calls ++ ApiCall next outcome :: rest
    /\ dispatched (response_content response) calls
    /\ map tool_use_id (results_of calls) = tool_use_ids (response_content response)
    /\ p_messages next
       = p_messages params
           ++ [mkMessage assistant (ResponseContent (response_content response))]
           ++ user_message (results_of calls).
Proof.
  intros Htrace Htools Hstop.
  destruct (generate_response_run self query history tools tool_manager
              max_rounds w)
    as [(tl & tm & answer & tr & s' & _ & _ & _ & Hrun & Hruns)
       | (_ & outcome & w' & Hrun)];
    rewrite Hrun in Htrace; simpl in Htrace.
  - destruct (tool_round_answered Hruns _ _ _ _ Htrace Htools Hstop)
      as (calls & next & outcome & rest & Hpost & Hd & Hmsgs).
    exists calls, next, outcome, rest.
    repeat split; auto.
    apply dispatched_ids. exact Hd.
  - destruct pre as [| x [| y pre]]; simpl in Htrace; try discriminate Htrace.
    inversion Htrace; subst. discriminate Htools.
Qed.

Lemma tool_use_blocks_answered_witness :
  exists calls next outcome rest,
    [ToolCall "toolu_1" "search_course_content" [("query", "MCP")]
       (Raise "backend unreachable");
     failing_search_final_call]
    = calls ++ ApiCall next outcome :: rest
    /\ dispatched (response_content (tool_use_response "toolu_1")) calls
    /\ map tool_use_id (results_of calls)
       = tool_use_ids (response_content (tool_use_response "toolu_1"))
    /\ p_messages next
       = p_messages
           (round_params scripted_generator (system_content_of None)
              [search_tool] [mkMessage user (Str "What is MCP?")])
           ++ [mkMessage assistant
                 (ResponseContent (response_content (tool_use_response "toolu_1")))]
           ++ user_message (results_of calls).
Proof.
  apply (@tool_use_blocks_answered Script scripted_generator "What is MCP?"
           None (Some [search_tool]) (Some scripted_tools) 2 failing_search []);
    [vm_compute; reflexivity | reflexivity | reflexivity].
Defined.

(** C7, as the specification states it, fails: the result built for a
    dispatch that raised is a dict without the [is_error] key.  Here the
    search of the first round raises; the final model call is handed the
    result with the error text and [is_error] absent, and no model call
    of the run is handed a result marked as an error. *)
Lemma failed_dispatch_is_not_marked_is_error :
  let out := generate_response scripted_generator "What is MCP?" None
               (Some [search_tool]) (Some scripted_tools) 2 failing_search in
  trace_of out
  = [ApiCall (round_params scripted_generator (system_content_of None)
                [search_tool] [mkMessage user (Str "What is MCP?")])
       (Ok (tool_use_response "toolu_1"));
     ToolCall "toolu_1" "search_course_content" [("query", "MCP")]
       (Raise "backend unreachable");
     ApiCall (final_params scripted_generator (system_content_of None)
                [mkMessage user (Str "What is MCP?");
                 mkMessage assistant
                   (ResponseContent (response_content (tool_use_response "toolu_1")));
                 mkMessage user
                   (ToolResults
                      [mkToolResult "toolu_1"
                         "Tool execution failed: backend unreachable" None])])
       (Ok (text_response "The search is unavailable."))]
  /\ reports_marked_error (trace_of out) = false
  /\ ~ (exists p o m r,
          In (ApiCall p o) (trace_of out) /\ In m (p_messages p)
          /\ In r (tool_results_of m) /\ is_error r = Some true).
Proof.
  cbv zeta.
  assert (Htrace : trace_of
            (generate_response scripted_generator "What is MCP?" None
               (Some [search_tool]) (Some scripted_tools) 2 failing_search)
          = [ApiCall (round_params scripted_generator (system_content_of None)
                        [search_tool] [mkMessage user (Str "What is MCP?")])
               (Ok (tool_use_response "toolu_1"));
             ToolCall "toolu_1" "search_course_content" [("query", "MCP")]
               (Raise "backend unreachable");
             ApiCall (final_params scripted_generator (system_content_of None)
                        [mkMessage user (Str "What is MCP?");
                         mkMessage assistant
                           (ResponseContent
                              (response_content (tool_use_response "toolu_1")));
                         mkMessage user
                           (ToolResults
                              [mkToolResult "toolu_1"
                                 "Tool execution failed: backend unreachable"
                                 None])])
               (Ok (text_response "The search is unavailable."))])
    by (vm_compute; reflexivity).
  rewrite Htrace. split; [reflexivity |]. split; [reflexivity |].
  intros (p & o & m & r & Hp & Hm & Hr & Herr).
  simpl in Hp.
  destruct Hp as [Hp | [Hp | [Hp | []]]]; inversion Hp; subst; simpl in Hm;
    repeat (destruct Hm as [Hm | Hm]; [subst m; simpl in Hr |]);
    try contradiction;
    repeat (destruct Hr as [Hr | Hr]; [subst r; discriminate Herr |]);
    contradiction.
Qed.

(** C7, amended.  A dispatch that raises does not end the call with an
    exception: the call returns an answer, the failure is kept as a tool
    result with the id of the block, the text ["Tool execution failed: "]
    followed by the text of the exception, and no [is_error] key, and
    that result is in the user message of the chain handed to the one
    model call that follows. *)
Theorem failed_dispatch_reported (World : Type)
    (self : AIGenerator World) (query : string) (history : option string)
    (tools : option (list ToolSchema)) (tool_manager : option (ToolManager World))
    (max_rounds : Z) (w : World)
    (pre post : list Event) (id name : string) (input : ToolInput) (e : string) :
  trace_of (generate_response self query history tools tool_manager max_rounds w)
  = pre ++ ToolCall id name input (Raise e) :: post ->
  exists answer s' rest next outcome results,
    generate_response self query history tools tool_manager max_rounds w
    = Some (Ok answer, pre ++ ToolCall id name input (Raise e) :: post, s')
    /\ post = rest ++ [ApiCall next outcome]
    /\ forallb is_tool_call rest = true
    /\ In (mkMessage user (ToolResults results)) (p_messages next)
    /\ In (mkToolResult id ("Tool execution failed: " ++ e)%string None) results.
Proof.
  intros Htrace.
  destruct (generate_response_run self query history tools tool_manager
              max_rounds w)
    as [(tl & tm & answer & tr & s' & _ & _ & _ & Hrun & Hruns)
       | (_ & outcome & w' & Hrun)];
    rewrite Hrun in Htrace |- *; simpl in Htrace.
  - destruct (tool_failure_ends_run Hruns _ _ _ _ _ _ Htrace)
      as (rest & msgs0 & response & calls & outcome & Hpost & Hrest & Hin & Hans).
    apply failed_dispatch_result in Hin.
    exists answer, s', rest,
      (final_params self (system_content_of history)
         (after_tools msgs0 response calls)),
      outcome, (results_of calls).
    subst tr. repeat split; auto.
    simpl. unfold after_tools. apply in_or_app. right. apply in_or_app. right.
    apply user_message_in with (r := mkToolResult id
                                       ("Tool execution failed: " ++ e)%string None).
    exact Hin.
  - destruct pre as [| x [| y pre]]; simpl in Htrace; discriminate Htrace.
Qed.

Lemma failed_dispatch_reported_witness :
  exists answer s' rest next outcome results,
    generate_response scripted_generator "What is MCP?" None
      (Some [search_tool]) (Some scripted_tools) 2 failing_search
    = Some (Ok answer,
            [failing_search_first_call]
            ++ ToolCall "toolu_1" "search_course_content" [("query", "MCP")]
                 (Raise "backend unreachable")
            :: [failing_search_final_call],
            s')
    /\ [failing_search_final_call] = rest ++ [ApiCall next outcome]
    /\ forallb is_tool_call rest = true
    /\ In (mkMessage user (ToolResults results)) (p_messages next)
    /\ In (mkToolResult "toolu_1"
             ("Tool execution failed: " ++ "backend unreachable")%string None)
          results.
Proof.
  apply failed_dispatch_reported. vm_compute. reflexivity.
Defined.


(** C9. With a non-empty tool list and a tool manager but a round budget
    of zero or less, the loop body never runs: the call makes exactly one
    model call, without tools, and returns its text, or the text of the
    handler when that call fails; [round_count] stays at 0.  When the
    response starts with a text block the call returns the text of that
    block; when the model call raises, it returns
    ["Error generating final response: "] and the text of the
    exception. *)
Theorem nonpositive_budget_single_call (World : Type)
    (self : AIGenerator World) (query : string) (history : option string)
    (tools : list ToolSchema) (tm : ToolManager World) (max_rounds : Z)
    (w : World) :
  tools <> [] ->
  max_rounds <= 0 ->
  exists params outcome s',
    generate_response self query history (Some tools) (Some tm) max_rounds w
    = Some (Ok (answer_or "Error generating final response: " outcome),
            [ApiCall params outcome], s')
    /\ p_tools params = None
    /\ p_tool_choice params = None
    /\ p_messages params = [mkMessage user (Str query)]
    /\ round_count s' = 0
    /\ (forall response text blocks,
          outcome = Ok response ->
          response_content response = TextBlock text :: blocks ->
          generate_response self query history (Some tools) (Some tm) max_rounds w
          = Some (Ok text, [ApiCall params outcome], s'))
    /\ forall e,
         outcome = Raise e ->
         generate_response self query history (Some tools) (Some tm) max_rounds w
         = Some (Ok ("Error generating final response: " ++ e)%string,
                 [ApiCall params outcome], s').
Proof.
  intros Htools Hmax.
  destruct (generate_response_run self query history (Some tools) (Some tm)
              max_rounds w)
    as [(tl & tm' & answer & tr & s' & _ & _ & _ & Hrun & Hruns)
       | ([H | [H | H]] & _)]; try discriminate H.
  - rewrite Hrun.
    inversion Hruns as [o Hrc | tr0 answer0 rc0 msgs0 Hrc Hround
                       | tr1 rc1 msgs1 tr0 answer0 rc0 msgs0 Hrc Hround Hrest];
      subst; try lia.
    do 3 eexists. split; [reflexivity |]. repeat split; auto.
    + intros response text blocks Ho Hblocks. subst o.
      rewrite (answer_or_first_block _ _ Hblocks). reflexivity.
    + intros e Ho. subst o. reflexivity.
  - inversion H. contradiction.
Qed.

Lemma nonpositive_budget_single_call_witness :
  exists params s',
    generate_response scripted_generator "Capital of France?" None
      (Some [search_tool]) (Some scripted_tools) 0 direct_answer
    = Some (Ok "Paris.", [ApiCall params (Ok (text_response "Paris."))], s')
    /\ p_tools params = None
    /\ p_tool_choice params = None
    /\ p_messages params = [mkMessage user (Str "Capital of France?")]
    /\ round_count s' = 0.
Proof.
  destruct (@nonpositive_budget_single_call Script scripted_generator
              "Capital of France?" None [search_tool] scripted_tools 0
              direct_answer)
    as (params & outcome & s' & Hrun & Ht & Hc & Hm & Hcount & Htext & _);
    [discriminate | lia |].
  assert (Hlast : last_outcome
                    (trace_of
                       (generate_response scripted_generator "Capital of France?"
                          None (Some [search_tool]) (Some scripted_tools) 0
                          direct_answer))
                  = Some (Ok (text_response "Paris.")))
    by (vm_compute; reflexivity).
  rewrite Hrun in Hlast. simpl in Hlast. inversion Hlast as [Houtcome].
  exists params, s'. rewrite <- Houtcome.
  split; [apply (Htext (text_response "Paris.") "Paris." []);
          [exact Houtcome | reflexivity] |].
  repeat split; assumption.
Defined.

(** C10. The tool phase of a round appends to the chain the assistant
    message whose content is the content list of the response, all its
    blocks in their order, text blocks included, then the user message of
    the results when there are results; the messages that were in the
    chain stay as they were, in their places. *)
Theorem assistant_message_keeps_response_content (World : Type)
    (response : Response) (tm : ToolManager World) (s : Store World) :
  exists calls s',
    _handle_tool_execution_sequential response tm s
    = Some (Ok (all_succeeded calls), calls, s')
    /\ dispatched (response_content response) calls
    /\ messages s'
       = messages s
           ++ [mkMessage assistant (ResponseContent (response_content response))]
           ++ user_message (results_of calls)
    /\ firstn (length (messages s)) (messages s') = messages s
    /\ nth_error (messages s') (length (messages s))
       = Some (mkMessage assistant (ResponseContent (response_content response))).
Proof.
  destruct (handle_tool_execution_run response tm s) as (calls & w' & Hrun & Hd).
  exists calls,
    (mkStore w' (after_tools (messages s) response calls) (round_count s)).
  split; [exact Hrun |]. split; [exact Hd |]. simpl. unfold after_tools.
  split; [reflexivity |]. split.
  - rewrite firstn_app, Nat.sub_diag, firstn_all. simpl. apply app_nil_r.
  - rewrite nth_error_app2, Nat.sub_diag; [reflexivity | lia].
Qed.

(** C3, on the path without tools: the single model call is not guarded,
    and a provider that fails there makes [generate_response] raise. *)
Theorem provider_error_escapes_without_tools :
  generate_response scripted_generator "What is MCP?" None None None 2
    provider_down
  = Some (Raise "Connection error.",
          [ApiCall (final_params scripted_generator (system_content_of None)
                      [mkMessage user (Str "What is MCP?")])
             (Raise "Connection error.")],
          mkStore (mkScript [] []) [mkMessage user (Str "What is MCP?")] 0).
Proof.
  vm_compute. reflexivity.
Qed.

(** With tools, the same failure of the provider is caught: the call
    returns the text of the handler. *)
Example provider_error_caught_with_tools :
  exists tr s',
    generate_response scripted_generator "What is MCP?" None
      (Some [search_tool]) (Some scripted_tools) 2 provider_down
    = Some (Ok "Error generating response: Connection error.", tr, s').
Proof.
  do 2 eexists. vm_compute. reflexivity.
Qed.

(** With tools, a call never raises, whatever the provider and the tools
    do. *)
Lemma tool_path_returns_text (World : Type)
    (self : AIGenerator World) (query : string) (history : option string)
    (tools : list ToolSchema) (tm : ToolManager World) (max_rounds : Z)
    (w : World) :
  tools <> [] ->
  exists answer tr s',
    generate_response self query history (Some tools) (Some tm) max_rounds w
    = Some (Ok answer, tr, s').
Proof.
  intros Htools.
  destruct (generate_response_run self query history (Some tools) (Some tm)
              max_rounds w)
    as [(tl & tm' & answer & tr & s' & _ & _ & _ & Hrun & _)
       | ([H | [H | H]] & _)]; try discriminate H.
  - eauto.
  - inversion H. contradiction.
Qed.

(** ** The single-round handler [_handle_tool_execution] *)

Section SingleRoundHandler.

Context {World : Type}.

Lemma for_tool_uses_step (tm : ToolManager World) id name input blocks
    tool_results (s : Store World) :
  for_tool_uses tm (ToolUseBlock id name input :: blocks) tool_results s
  = match tm name input (world s) with
    | (Ok tool_result, w1) =>
        match for_tool_uses tm blocks
                (tool_results ++ [mkToolResult id tool_result None])
                (mkStore w1 (messages s) (round_count s)) with
        | None => None
        | Some (r, t2, s2) =>
            Some (r, ToolCall id name input (Ok tool_result) :: t2, s2)
        end
    | (Raise e, w1) =>
        Some (Raise e, [ToolCall id name input (Raise e)],
              mkStore w1 (messages s) (round_count s))
    end.
Proof.
  simpl. unfold bind, execute_tool.
  destruct (tm name input (world s)) as [[tool_result | e] w1]; reflexivity.
Qed.

(** The dispatch loop without a guard either serves every tool-use block
    or stops at the first dispatch that raises. *)
Lemma for_tool_uses_run (tm : ToolManager World) blocks :
  forall tool_results (s : Store World),
    (exists calls w',
        for_tool_uses tm blocks tool_results s
        = Some (Ok (tool_results ++ results_of calls), calls,
                mkStore w' (messages s) (round_count s))
        /\ dispatched blocks calls
        /\ all_succeeded calls = true)
    \/
    (exists calls id name input e w' served later,
        for_tool_uses tm blocks tool_results s
        = Some (Raise e, calls ++ [ToolCall id name input (Raise e)],
                mkStore w' (messages s) (round_count s))
        /\ blocks = served ++ ToolUseBlock id name input :: later
        /\ dispatched served calls
        /\ all_succeeded calls = true).
Proof.
  induction blocks as [| b blocks IH]; intros acc s.
  - left. exists [], (world s). simpl. unfold ret. rewrite app_nil_r.
    destruct s; simpl. repeat split. constructor.
  - destruct b as [text | id name input].
    + destruct (IH acc s)
        as [(calls & w' & Hrun & Hd & Hall)
           | (calls & id & name & input & e & w' & served & later
              & Hrun & Hblocks & Hd & Hall)].
      * left. exists calls, w'. repeat split; auto. constructor. exact Hd.
      * right. exists calls, id, name, input, e, w', (TextBlock text :: served), later.
        repeat split; auto.
        -- rewrite Hblocks. reflexivity.
        -- constructor. exact Hd.
    + rewrite for_tool_uses_step.
      destruct (tm name input (world s)) as [[tool_result | e] w1] eqn:Htm.
      * destruct (IH (acc ++ [mkToolResult id tool_result None])
                    (mkStore w1 (messages s) (round_count s)))
          as [(calls & w' & Hrun & Hd & Hall)
             | (calls & id' & name' & input' & e & w' & served & later
                & Hrun & Hblocks & Hd & Hall)];
          simpl in Hrun; rewrite Hrun.
        -- left. exists (ToolCall id name input (Ok tool_result) :: calls), w'.
           simpl. rewrite <- app_assoc. simpl.
           repeat split; auto. constructor. exact Hd.
        -- right.
           exists (ToolCall id name input (Ok tool_result) :: calls),
             id', name', input', e, w',
             (ToolUseBlock id name input :: served), later.
           simpl. repeat split; auto.
           ++ rewrite Hblocks. reflexivity.
           ++ constructor. exact Hd.
      * right. exists [], id, name, input, e, w1, [], blocks.
        simpl. repeat split. constructor.
Qed.

(** When the guarded loop reports success, the unguarded loop, started in
    the same world, does the same dispatches and collects the same
    results. *)
Lemma for_tool_uses_agrees (tm : ToolManager World) blocks :
  forall tool_results (s s1 s0 : Store World) results calls,
    for_content_blocks tm blocks tool_results true s
    = Some (Ok (results, true), calls, s1) ->
    world s0 = world s ->
    for_tool_uses tm blocks tool_results s0
    = Some (Ok results, calls, mkStore (world s1) (messages s0) (round_count s0)).
Proof.
  induction blocks as [| b blocks IH]; intros acc s s1 s0 results calls Hrun Hw.
  - simpl in *. unfold ret in *. inversion Hrun; subst.
    rewrite <- Hw. destruct s0; reflexivity.
  - destruct b as [text | id name input].
    + simpl in *. eapply IH; eassumption.
    + rewrite for_tool_uses_step. simpl in Hrun.
      unfold bind at 1 in Hrun.
      unfold try_except, bind, execute_tool, ret in Hrun.
      rewrite Hw.
      destruct (tm name input (world s)) as [[tool_result | e] w1] eqn:Htm;
        simpl in Hrun.
      * destruct (for_content_blocks tm blocks
                    (acc ++ [mkToolResult id tool_result None]) true
                    (mkStore w1 (messages s) (round_count s)))
          as [[[r t2] s2] |] eqn:Hrest; [| discriminate Hrun].
        inversion Hrun; subst.
        rewrite (IH _ _ _ (mkStore w1 (messages s0) (round_count s0)) _ _ Hrest
                   eq_refl).
        reflexivity.
      * exfalso.
        destruct (for_content_blocks_run tm blocks
                    (acc ++ [mkToolResult id
                               ("Tool execution failed: " ++ e)%string None])
                    false (mkStore w1 (messages s) (round_count s)))
          as (calls' & w' & Hrest & _).
        simpl in Hrest. rewrite Hrest in Hrun. simpl in Hrun.
        inversion Hrun.
Qed.

(** [_handle_tool_execution], step by step. *)
Lemma handle_tool_execution_eq (self : AIGenerator World)
    (initial_response : Response) (base_params : BaseParams)
    (tm : ToolManager World) (s : Store World) :
  _handle_tool_execution self initial_response base_params tm s
  = match bp_messages base_params with
    | None => Some (Raise "'messages'", [], s)
    | Some msgs =>
        match for_tool_uses tm (response_content initial_response) [] s with
        | None => None
        | Some (Raise e, t, s1) => Some (Raise e, t, s1)
        | Some (Ok tool_results, t, s1) =>
            match bp_system base_params with
            | None => Some (Raise "'system'", t, s1)
            | Some system_content =>
                let chain :=
                  msgs ++
                    [mkMessage assistant
                       (ResponseContent (response_content initial_response))]
                    ++ user_message tool_results in
                let '(outcome, w2) :=
                  client self (final_params self system_content chain) (world s1) in
                Some (match outcome with
                      | Ok final_response => content0_text final_response
                      | Raise e => Raise e
                      end,
                      t ++ [ApiCall (final_params self system_content chain) outcome],
                      mkStore w2 (messages s1) (round_count s1))
            end
        end
    end.
Proof.
  unfold _handle_tool_execution.
  destruct (bp_messages base_params) as [msgs |]; [| reflexivity].
  unfold bind at 1. unfold lift at 1. simpl subscript. cbv iota beta.
  unfold bind at 1.
  destruct (for_tool_uses tm (response_content initial_response) [] s)
    as [[[[tool_results | e] t] s1] |]; try reflexivity.
  destruct (bp_system base_params) as [system_content |].
  - unfold bind, lift, messages_create. simpl subscript. cbv iota beta.
    replace (match tool_results with
             | [] => msgs ++ [mkMessage assistant
                                (ResponseContent (response_content initial_response))]
             | _ :: _ =>
                 (msgs ++ [mkMessage assistant
                             (ResponseContent (response_content initial_response))])
                 ++ [mkMessage user (ToolResults tool_results)]
             end)
      with (msgs ++
              [mkMessage assistant
                 (ResponseContent (response_content initial_response))]
              ++ user_message tool_results)
      by (unfold user_message; destruct tool_results;
          [rewrite app_nil_r | rewrite <- app_assoc]; reflexivity).
    cbv zeta.
    fold (final_params self system_content
            (msgs ++
               [mkMessage assistant
                  (ResponseContent (response_content initial_response))]
               ++ user_message tool_results)).
    destruct (client self
                (final_params self system_content
                   (msgs ++
                      [mkMessage assistant
                         (ResponseContent (response_content initial_response))]
                      ++ user_message tool_results)) (world s1))
      as [[final_response | e] w2]; simpl.
    + destruct (content0_text final_response); rewrite ?app_nil_r; reflexivity.
    + reflexivity.
  - unfold bind, lift. simpl. rewrite app_nil_r. reflexivity.
Qed.

(** The ways [_handle_tool_execution] can go. *)
Lemma handle_tool_execution_cases (self : AIGenerator World)
    (initial_response : Response) (base_params : BaseParams)
    (tm : ToolManager World) (s : Store World) :
  match bp_messages base_params with
  | None =>
      _handle_tool_execution self initial_response base_params tm s
      = Some (Raise "'messages'", [], s)
  | Some msgs =>
      (exists calls w',
          dispatched (response_content initial_response) calls
          /\ all_succeeded calls = true
          /\ match bp_system base_params with
             | None =>
                 _handle_tool_execution self initial_response base_params tm s
                 = Some (Raise "'system'", calls,
                         mkStore w' (messages s) (round_count s))
             | Some system_content =>
                 exists outcome w2,
                   _handle_tool_execution self initial_response base_params tm s
                   = Some (match outcome with
                           | Ok final_response => content0_text final_response
                           | Raise e => Raise e
                           end,
                           calls ++
                             [ApiCall (final_params self system_content
                                         (after_tools msgs initial_response calls))
                                outcome],
                           mkStore w2 (messages s) (round_count s))
             end)
      \/
      (exists calls id name input e w' served later,
          _handle_tool_execution self initial_response base_params tm s
          = Some (Raise e, calls ++ [ToolCall id name input (Raise e)],
                  mkStore w' (messages s) (round_count s))
          /\ response_content initial_response
             = served ++ ToolUseBlock id name input :: later
          /\ dispatched served calls
          /\ all_succeeded calls = true)
  end.
Proof.
  rewrite handle_tool_execution_eq.
  destruct (bp_messages base_params) as [msgs |]; [| reflexivity].
  destruct (for_tool_uses_run tm (response_content initial_response) [] s)
    as [(calls & w' & Hrun & Hd & Hall)
       | (calls & id & name & input & e & w' & served & later
          & Hrun & Hblocks & Hd & Hall)];
    rewrite Hrun.
  - left. exists calls, w'. split; [exact Hd |]. split; [exact Hall |].
    destruct (bp_system base_params) as [system_content |]; [| reflexivity].
    cbv zeta.
    match goal with
    | |- context [client self ?p ?w] =>
        destruct (client self p w) as [outcome w2]
    end.
    exists outcome, w2. reflexivity.
  - right. exists calls, id, name, input, e, w', served, later.
    repeat split; auto.
Qed.

(** X1. With both keys present, when no dispatch raises,
    [_handle_tool_execution] dispatches every tool-use block of the
    response, in order, then makes exactly one model call, without tools,
    on the given messages followed by the assistant message and the user
    message of the results, with the given system text; it returns the
    text of the first block of the answer (when that block is a text
    block, the function returns its text), or raises what that call or
    that lookup raises.  The message list of the caller is not changed. *)
Theorem single_round_final_call (self : AIGenerator World)
    (initial_response : Response) (msgs : list Message) (system_content : string)
    (tm : ToolManager World) (s : Store World) :
  all_succeeded
    (trace_of (_handle_tool_execution self initial_response
                 (mkBaseParams (Some msgs) (Some system_content)) tm s)) = true ->
  exists calls final outcome s',
    _handle_tool_execution self initial_response
      (mkBaseParams (Some msgs) (Some system_content)) tm s
    = Some (match outcome with
            | Ok final_response => content0_text final_response
            | Raise e => Raise e
            end,
            calls ++ [ApiCall final outcome], s')
    /\ dispatched (response_content initial_response) calls
    /\ p_messages final
       = msgs ++ [mkMessage assistant
                    (ResponseContent (response_content initial_response))]
              ++ user_message (results_of calls)
    /\ p_system final = system_content
    /\ p_tools final = None
    /\ p_tool_choice final = None
    /\ messages s' = messages s
    /\ forall final_response text blocks,
         outcome = Ok final_response ->
         response_content final_response = TextBlock text :: blocks ->
         _handle_tool_execution self initial_response
           (mkBaseParams (Some msgs) (Some system_content)) tm s
         = Some (Ok text, calls ++ [ApiCall final outcome], s').
Proof.
  intros Hall.
  pose proof (handle_tool_execution_cases self initial_response
                (mkBaseParams (Some msgs) (Some system_content)) tm s) as Hcases.
  simpl in Hcases.
  destruct Hcases
    as [(calls & w' & Hd & _ & outcome & w2 & Hrun)
       | (calls & id & name & input & e & w' & served & later & Hrun & _)].
  - rewrite Hrun. do 4 eexists. split; [reflexivity |]. repeat split; auto.
    intros final_response text blocks Ho Hblocks. subst outcome.
    rewrite (content0_text_first_block _ Hblocks). reflexivity.
  - exfalso. rewrite Hrun in Hall. simpl in Hall.
    apply (all_succeeded_no_raise _ id name input e Hall). apply in_elt.
Qed.

(** X2. A dispatch that raises ends [_handle_tool_execution] there: the
    exception leaves the function as it is, the blocks after the failing
    one are not dispatched, no model call is made, and the message list
    of the caller is not changed. *)
Theorem single_round_failure_propagates (self : AIGenerator World)
    (initial_response : Response) (base_params : BaseParams)
    (tm : ToolManager World) (s : Store World)
    (pre post : list Event) (id name : string) (input : ToolInput) (e : string) :
  trace_of (_handle_tool_execution self initial_response base_params tm s)
  = pre ++ ToolCall id name input (Raise e) :: post ->
  post = []
  /\ api_calls pre = []
  /\ (exists s',
        _handle_tool_execution self initial_response base_params tm s
        = Some (Raise e, pre ++ [ToolCall id name input (Raise e)], s')
        /\ messages s' = messages s)
  /\ exists served later,
       response_content initial_response
       = served ++ ToolUseBlock id name input :: later
       /\ dispatched served pre.
Proof.
  intros Htrace.
  assert (Hnot : forall calls, all_succeeded calls = true ->
                 ~ In (ToolCall id name input (Raise e)) calls)
    by (intros calls; apply all_succeeded_no_raise).
  pose proof (handle_tool_execution_cases self initial_response base_params tm s)
    as Hcases.
  destruct (bp_messages base_params) as [msgs |].
  - destruct Hcases
      as [(calls & w' & Hd & Hall & Hrun)
         | (calls & id' & name' & input' & e' & w' & served & later
            & Hrun & Hblocks & Hd & Hall)].
    + exfalso.
      destruct (bp_system base_params) as [system_content |].
      * destruct Hrun as (outcome & w2 & Hrun).
        rewrite Hrun in Htrace. simpl in Htrace.
        apply (Hnot calls Hall).
        assert (Hin : In (ToolCall id name input (Raise e))
                         (calls ++ [ApiCall
                                      (final_params self system_content
                                         (after_tools msgs initial_response calls))
                                      outcome]))
          by (rewrite Htrace; apply in_elt).
        apply in_app_or in Hin. destruct Hin as [Hin | [Hin | []]];
          [exact Hin | discriminate Hin].
      * rewrite Hrun in Htrace. simpl in Htrace.
        apply (Hnot calls Hall). rewrite Htrace. apply in_elt.
    + rewrite Hrun in Htrace |- *. simpl in Htrace.
      symmetry in Htrace.
      apply split_past_prefix in Htrace; [| apply Hnot; exact Hall].
      destruct Htrace as (pre' & Hpre & Hlast).
      destruct pre' as [| x [| y pre']]; simpl in Hlast; try discriminate Hlast.
      inversion Hlast; subst. rewrite app_nil_r.
      split; [reflexivity |].
      split; [eapply dispatched_api_calls; exact Hd |].
      split; [eexists; split; reflexivity |].
      exists served, later. split; assumption.
  - rewrite Hcases in Htrace. simpl in Htrace.
    destruct pre; discriminate Htrace.
Qed.

(** X3. Without the ["system"] key, [_handle_tool_execution] finds it
    out only after the tool phase: when no dispatch raises, every
    tool-use block has been dispatched, no model call is made and the
    function raises the [KeyError] of the key. *)
Theorem single_round_missing_system (self : AIGenerator World)
    (initial_response : Response) (msgs : list Message)
    (tm : ToolManager World) (s : Store World) :
  all_succeeded
    (trace_of (_handle_tool_execution self initial_response
                 (mkBaseParams (Some msgs) None) tm s)) = true ->
  exists calls s',
    _handle_tool_execution self initial_response
      (mkBaseParams (Some msgs) None) tm s
    = Some (Raise "'system'", calls, s')
    /\ dispatched (response_content initial_response) calls
    /\ api_calls calls = [].
Proof.
  intros Hall.
  pose proof (handle_tool_execution_cases self initial_response
                (mkBaseParams (Some msgs) None) tm s) as Hcases.
  simpl in Hcases.
  destruct Hcases
    as [(calls & w' & Hd & _ & Hrun)
       | (calls & id & name & input & e & w' & served & later & Hrun & _)].
  - rewrite Hrun. do 2 eexists. split; [reflexivity |].
    split; [exact Hd | eapply dispatched_api_calls; exact Hd].
  - exfalso. rewrite Hrun in Hall. simpl in Hall.
    apply (all_succeeded_no_raise _ id name input e Hall). apply in_elt.
Qed.

(** X4. When [_handle_tool_execution_sequential] reports success,
    [_handle_tool_execution], started in the same world on the same
    messages, makes the same dispatches and then its model call on
    exactly the chain the sequential handler leaves. *)
Theorem single_round_agrees_with_sequential (self : AIGenerator World)
    (response : Response) (system_content : string)
    (tm : ToolManager World) (s s1 : Store World) (calls : list Event) :
  _handle_tool_execution_sequential response tm s = Some (Ok true, calls, s1) ->
  exists outcome w2,
    client self (final_params self system_content (messages s1)) (world s1)
    = (outcome, w2)
    /\ _handle_tool_execution self response
         (mkBaseParams (Some (messages s)) (Some system_content)) tm s
       = Some (match outcome with
               | Ok final_response => content0_text final_response
               | Raise e => Raise e
               end,
               calls ++
                 [ApiCall (final_params self system_content (messages s1)) outcome],
               mkStore w2 (messages s) (round_count s)).
Proof.
  intros Hseq.
  unfold _handle_tool_execution_sequential in Hseq.
  unfold bind at 1 in Hseq. unfold append_message at 1 in Hseq.
  unfold bind at 1 in Hseq.
  destruct (for_content_blocks_run tm (response_content response) [] true
              (mkStore (world s)
                 (messages s ++
                    [mkMessage assistant (ResponseContent (response_content response))])
                 (round_count s)))
    as (calls' & w' & Hfc & Hd).
  simpl in Hfc. rewrite Hfc in Hseq.
  assert (Hshape : calls = calls' /\ all_succeeded calls' = true
                   /\ s1 = mkStore w'
                             (messages s ++
                                [mkMessage assistant
                                   (ResponseContent (response_content response))]
                                ++ user_message (results_of calls'))
                             (round_count s)).
  { unfold user_message.
    destruct (results_of calls'); simpl in Hseq;
      unfold bind, append_message, ret in Hseq; simpl in Hseq;
      inversion Hseq; subst; rewrite ?app_nil_r, <- ?app_assoc; auto. }
  destruct Hshape as (Hcalls & Hall & Hs1). subst calls s1.
  rewrite Hall in Hfc.
  pose proof (for_tool_uses_agrees tm (response_content response) [] _ s Hfc
                eq_refl) as Htools.
  simpl in Htools.
  rewrite handle_tool_execution_eq. simpl bp_messages. simpl bp_system.
  cbv iota beta. rewrite Htools. cbv zeta. simpl.
  destruct (client self
              (final_params self system_content
                 (messages s ++
                    mkMessage assistant (ResponseContent (response_content response))
                    :: user_message (results_of calls'))) w')
    as [outcome w2].
  exists outcome, w2. split; reflexivity.
Qed.

End SingleRoundHandler.

(** ** More facts about runs of the loop *)

Section MoreRunFacts.

Context {World : Type}.
Variable self : AIGenerator World.
Variable system_content : string.
Variable tools : list ToolSchema.

(** The model calls of one pass through the loop body. *)
Lemma round_run_api_calls rc msgs tr flow rc' msgs' :
  round_run self system_content tools rc msgs tr flow rc' msgs' ->
  (exists o, api_calls tr = [(round_params self system_content tools msgs, o)]
             /\ (flow = Continue -> exists response, o = Ok response)
             /\ rc' = (if answered_round
                            (round_params self system_content tools msgs, o)
                       then rc + 1 else rc))
  \/ (exists response o,
         api_calls tr = [(round_params self system_content tools msgs, Ok response);
                         (final_params self system_content msgs', o)]
         /\ flow <> Continue /\ rc' = rc + 1).
Proof.
  intros Hround.
  destruct Hround as [e | response Hstop | response calls outcome Hstop Hd Hall
                     | response calls Hstop Hd Hall]; simpl.
  - left. eexists. repeat split. intros H; discriminate H.
  - left. eexists. repeat split. intros H; discriminate H.
  - right. rewrite api_calls_app, (dispatched_api_calls Hd). simpl.
    do 2 eexists. repeat split. discriminate.
  - left. rewrite (dispatched_api_calls Hd).
    eexists. repeat split. intros _. eexists. reflexivity.
Qed.

(** The number of model calls of a run is bounded by what is left of the
    budget: at most that many calls with tools, at most one without. *)
Lemma rounds_run_calls_bounded max_rounds rc msgs tr answer rc' msgs' :
  rounds_run self system_content tools max_rounds rc msgs tr answer rc' msgs' ->
  (1 <= length (api_calls tr))%nat
  /\ (length (filter (fun c => tool_enabled (fst c)) (api_calls tr))
      <= Z.to_nat (max_rounds - rc))%nat
  /\ (length (filter (fun c => negb (tool_enabled (fst c))) (api_calls tr))
      <= 1)%nat.
Proof.
  induction 1 as [rc msgs o Hrc | rc msgs tr answer rc' msgs' Hrc Hround
                 | rc msgs tr1 rc1 msgs1 tr answer rc' msgs' Hrc Hround Hrest IH].
  - simpl. lia.
  - destruct (round_run_api_calls Hround)
      as [(o & Hcalls & _) | (response & o & Hcalls & _)];
      rewrite Hcalls; simpl; lia.
  - pose proof (round_run_continue Hround) as Hrc1. subst rc1.
    destruct (round_run_api_calls Hround)
      as [(o & Hcalls & _) | (response & o & _ & Hflow & _)];
      [| contradiction].
    rewrite api_calls_app, Hcalls. simpl.
    destruct IH as (IH1 & IH2 & IH3). repeat split; lia.
Qed.

(** [round_count] counts the tool-enabled model calls that were answered,
    and does not pass the budget. *)
Lemma rounds_run_round_count max_rounds rc msgs tr answer rc' msgs' :
  rounds_run self system_content tools max_rounds rc msgs tr answer rc' msgs' ->
  rc' = rc + Z.of_nat (length (filter answered_round (api_calls tr)))
  /\ rc' <= Z.max rc max_rounds.
Proof.
  induction 1 as [rc msgs o Hrc | rc msgs tr answer rc' msgs' Hrc Hround
                 | rc msgs tr1 rc1 msgs1 tr answer rc' msgs' Hrc Hround Hrest IH].
  - simpl. destruct o; simpl; lia.
  - destruct (round_run_api_calls Hround)
      as [(o & Hcalls & _ & Hrc') | (response & o & Hcalls & _ & Hrc')];
      rewrite Hcalls; simpl.
    + destruct o; simpl in *; lia.
    + destruct o; simpl; lia.
  - destruct (round_run_api_calls Hround)
      as [(o & Hcalls & Hok & Hrc1) | (response & o & _ & Hflow & _)];
      [| contradiction].
    destruct (Hok eq_refl) as (response & Ho). subst o. simpl in Hrc1.
    rewrite api_calls_app, Hcalls. simpl. lia.
Qed.

(** A model call that raises is the last event of a run, and the answer
    is the text of the handler that caught it. *)
Lemma api_failure_ends_run max_rounds rc msgs tr answer rc' msgs' :
  rounds_run self system_content tools max_rounds rc msgs tr answer rc' msgs' ->
  forall pre p e post,
    tr = pre ++ ApiCall p (Raise e) :: post ->
    post = []
    /\ (answer = ("Error generating response: " ++ e)%string
        \/ answer = ("Error generating final response: " ++ e)%string)
    /\ (tool_enabled p = true ->
        answer = ("Error generating response: " ++ e)%string).
Proof.
  induction 1 as [rc msgs o Hrc | rc msgs tr answer rc' msgs' Hrc Hround
                 | rc msgs tr1 rc1 msgs1 tr answer rc' msgs' Hrc Hround Hrest IH].
  - intros pre p e post Heq.
    destruct pre as [| x [| y pre]]; simpl in Heq; try discriminate Heq.
    inversion Heq; subst. simpl. repeat split; auto. intros H; discriminate H.
  - inversion Hround as [e0 | response Hstop | response calls outcome Hstop Hd Hall
                        | ]; subst;
      intros pre p e post Heq.
    + destruct pre as [| x [| y pre]]; simpl in Heq; try discriminate Heq.
      inversion Heq; subst. repeat split; auto.
    + destruct pre as [| x [| y pre]]; simpl in Heq; discriminate Heq.
    + destruct pre as [| x pre]; simpl in Heq; inversion Heq as [[Hx Htail]].
      symmetry in Htail. apply split_past_prefix in Htail.
      * destruct Htail as (pre' & _ & Hlast).
        destruct pre' as [| y [| z pre']]; simpl in Hlast;
          try discriminate Hlast.
        inversion Hlast; subst. simpl. repeat split; auto.
      * apply only_tool_calls_no_api_call.
        eapply dispatched_only_tool_calls. exact Hd.
  - inversion Hround as [| | | response calls Hstop Hd Hall]; subst.
    intros pre p e post Heq.
    destruct pre as [| x pre]; simpl in Heq; inversion Heq as [[Hx Htail]].
    symmetry in Htail. apply split_past_prefix in Htail.
    + destruct Htail as (pre' & _ & Htr). eapply IH. exact Htr.
    + apply only_tool_calls_no_api_call.
      eapply dispatched_only_tool_calls. exact Hd.
Qed.

(** The fixed keys of every model call of a run, and its two shapes. *)
Lemma rounds_run_params max_rounds rc msgs tr answer rc' msgs' :
  rounds_run self system_content tools max_rounds rc msgs tr answer rc' msgs' ->
  forall p o, In (ApiCall p o) tr ->
    exists chain,
      p = round_params self system_content tools chain
      \/ p = final_params self system_content chain.
Proof.
  assert (Hcalls : forall blocks calls p o,
             dispatched blocks calls -> ~ In (ApiCall p o) calls).
  { intros blocks calls p o Hd.
    apply only_tool_calls_no_api_call.
    eapply dispatched_only_tool_calls. exact Hd. }
  induction 1 as [rc msgs o Hrc | rc msgs tr answer rc' msgs' Hrc Hround
                 | rc msgs tr1 rc1 msgs1 tr answer rc' msgs' Hrc Hround Hrest IH];
    intros p o' Hin.
  - destruct Hin as [Hp | []]. inversion Hp. eauto.
  - inversion Hround as [e0 | response Hstop | response calls outcome Hstop Hd Hall
                        | ]; subst; simpl in Hin.
    + destruct Hin as [Hp | []]. inversion Hp. eauto.
    + destruct Hin as [Hp | []]. inversion Hp. eauto.
    + destruct Hin as [Hp | Hin]; [inversion Hp; eauto |].
      apply in_app_or in Hin. destruct Hin as [Hin | [Hp | []]].
      * exfalso. revert Hin. eapply Hcalls. exact Hd.
      * inversion Hp. eauto.
  - apply in_app_or in Hin. destruct Hin as [Hin | Hin]; [| eapply IH; exact Hin].
    inversion Hround as [| | | response calls Hstop Hd Hall]; subst.
    destruct Hin as [Hp | Hin]; [inversion Hp; eauto |].
    exfalso. revert Hin. eapply Hcalls. exact Hd.
Qed.

(** Every model call of a run is on a chain that starts with the chain
    the run was given. *)
Lemma rounds_run_messages_extend max_rounds rc msgs tr answer rc' msgs' :
  rounds_run self system_content tools max_rounds rc msgs tr answer rc' msgs' ->
  forall p o, In (ApiCall p o) tr -> exists ext, p_messages p = msgs ++ ext.
Proof.
  assert (Hcalls : forall blocks calls p o,
             dispatched blocks calls -> ~ In (ApiCall p o) calls).
  { intros blocks calls p o Hd.
    apply only_tool_calls_no_api_call.
    eapply dispatched_only_tool_calls. exact Hd. }
  assert (Hsame : forall chain : list Message, exists ext, chain = chain ++ ext)
    by (intros chain; exists []; symmetry; apply app_nil_r).
  induction 1 as [rc msgs o Hrc | rc msgs tr answer rc' msgs' Hrc Hround
                 | rc msgs tr1 rc1 msgs1 tr answer rc' msgs' Hrc Hround Hrest IH];
    intros p o' Hin.
  - destruct Hin as [Hp | []]. inversion Hp. apply Hsame.
  - inversion Hround as [e0 | response Hstop | response calls outcome Hstop Hd Hall
                        | ]; subst; simpl in Hin.
    + destruct Hin as [Hp | []]. inversion Hp. apply Hsame.
    + destruct Hin as [Hp | []]. inversion Hp. apply Hsame.
    + destruct Hin as [Hp | Hin]; [inversion Hp; apply Hsame |].
      apply in_app_or in Hin. destruct Hin as [Hin | [Hp | []]].
      * exfalso. revert Hin. eapply Hcalls. exact Hd.
      * inversion Hp. simpl. unfold after_tools. eauto.
  - inversion Hround as [| | | response calls Hstop Hd Hall]; subst.
    apply in_app_or in Hin. destruct Hin as [Hin | Hin].
    + destruct Hin as [Hp | Hin]; [inversion Hp; apply Hsame |].
      exfalso. revert Hin. eapply Hcalls. exact Hd.
    + destruct (IH _ _ Hin) as (ext & Hext).
      rewrite Hext. unfold after_tools. rewrite <- app_assoc. eauto.
Qed.

(** A later model call of a run is on a longer chain that starts with the
    chain of the earlier one. *)
Lemma rounds_run_chain_grows max_rounds rc msgs tr answer rc' msgs' :
  rounds_run self system_content tools max_rounds rc msgs tr answer rc' msgs' ->
  forall pre p o post,
    tr = pre ++ ApiCall p o :: post ->
    forall p' o', In (ApiCall p' o') post ->
      exists m ext, p_messages p' = p_messages p ++ m :: ext.
Proof.
  assert (Hcalls : forall blocks calls p o,
             dispatched blocks calls -> ~ In (ApiCall p o) calls).
  { intros blocks calls p o Hd.
    apply only_tool_calls_no_api_call.
    eapply dispatched_only_tool_calls. exact Hd. }
  induction 1 as [rc msgs o Hrc | rc msgs tr answer rc' msgs' Hrc Hround
                 | rc msgs tr1 rc1 msgs1 tr answer rc' msgs' Hrc Hround Hrest IH].
  - intros pre p o' post Heq p' o'' Hin.
    destruct pre as [| x [| y pre]]; simpl in Heq; try discriminate Heq.
    inversion Heq; subst. destruct Hin.
  - inversion Hround as [e0 | response Hstop | response calls outcome Hstop Hd Hall
                        | ]; subst;
      intros pre p o' post Heq p' o'' Hin.
    + destruct pre as [| x [| y pre]]; simpl in Heq; try discriminate Heq.
      inversion Heq; subst. destruct Hin.
    + destruct pre as [| x [| y pre]]; simpl in Heq; try discriminate Heq.
      inversion Heq; subst. destruct Hin.
    + destruct pre as [| x pre]; simpl in Heq; inversion Heq as [[Hx Htail]].
      * subst. apply in_app_or in Hin. destruct Hin as [Hin | [Hp | []]].
        -- exfalso. revert Hin. eapply Hcalls. exact Hd.
        -- inversion Hp. simpl. unfold after_tools. simpl. eauto.
      * symmetry in Htail. apply split_past_prefix in Htail;
          [| eapply Hcalls; exact Hd].
        destruct Htail as (pre' & _ & Hlast).
        destruct pre' as [| y [| z pre']]; simpl in Hlast;
          try discriminate Hlast.
        inversion Hlast; subst. destruct Hin.
  - inversion Hround as [| | | response calls Hstop Hd Hall]; subst.
    intros pre p o' post Heq p' o'' Hin.
    destruct pre as [| x pre]; simpl in Heq; inversion Heq as [[Hx Htail]].
    + subst. apply in_app_or in Hin. destruct Hin as [Hin | Hin].
      * exfalso. revert Hin. eapply Hcalls. exact Hd.
      * destruct (rounds_run_messages_extend Hrest _ _ Hin) as (ext & Hext).
        rewrite Hext. simpl. unfold after_tools. rewrite <- app_assoc.
        simpl. eauto.
    + symmetry in Htail. apply split_past_prefix in Htail;
        [| eapply Hcalls; exact Hd].
      destruct Htail as (pre' & _ & Htr). eapply IH; eassumption.
Qed.

Lemma other_role_involutive r : other_role (other_role r) = r.
Proof.
  destruct r; reflexivity.
Qed.

Lemma alternates_app (l1 : list Message) :
  forall expected l2,
    alternates expected (l1 ++ l2)
    = alternates expected l1
      && alternates (if Nat.even (length l1) then expected
                     else other_role expected) l2.
Proof.
  induction l1 as [| m l1 IH]; intros expected l2; [reflexivity |].
  simpl app. simpl alternates. rewrite IH, <- andb_assoc.
  f_equal. f_equal. rewrite other_role_involutive.
  change (match length l1 with
          | 0%nat => false
          | S n' => Nat.even n'
          end) with (Nat.even (S (length l1))).
  rewrite Nat.even_succ, <- Nat.negb_even.
  destruct (Nat.even (length l1)); reflexivity.
Qed.

(** Appending the assistant message and a user message of results to a
    chain at a user turn leaves a chain at a user turn. *)
Lemma user_turn_after_tools msgs response calls :
  user_turn msgs = true ->
  results_of calls <> [] ->
  user_turn (after_tools msgs response calls) = true.
Proof.
  unfold user_turn, after_tools, user_message.
  intros Hturn Hresults.
  apply andb_true_iff in Hturn. destruct Hturn as [Halt Hodd].
  destruct (results_of calls) as [| r results]; [contradiction |].
  rewrite alternates_app, Halt, length_app. simpl length.
  rewrite <- Nat.negb_odd, Hodd. simpl.
  rewrite Nat.add_comm. simpl. exact Hodd.
Qed.

Lemma dispatched_results_nonempty blocks calls :
  dispatched blocks calls ->
  tool_use_ids blocks <> [] ->
  results_of calls <> [].
Proof.
  intros Hd Hids Hnil. apply Hids.
  rewrite <- (dispatched_ids Hd), Hnil. reflexivity.
Qed.

(** While every tool round names a tool, every model call of a run that
    starts at a user turn is made at a user turn. *)
Lemma rounds_run_user_turn max_rounds rc msgs tr answer rc' msgs' :
  rounds_run self system_content tools max_rounds rc msgs tr answer rc' msgs' ->
  user_turn msgs = true ->
  forallb names_a_tool tr = true ->
  Forall (fun c => user_turn (p_messages (fst c)) = true) (api_calls tr).
Proof.
  assert (Hnames : forall chain response calls,
             stop_reason response = "tool_use" ->
             dispatched (response_content response) calls ->
             names_a_tool
               (ApiCall (round_params self system_content tools chain) (Ok response))
             = true ->
             results_of calls <> []).
  { intros chain response calls Hstop Hd Hn.
    eapply dispatched_results_nonempty; [exact Hd |].
    simpl in Hn. rewrite Hstop, String.eqb_refl in Hn.
    destruct (tool_use_ids (response_content response)); [discriminate Hn |].
    discriminate. }
  induction 1 as [rc msgs o Hrc | rc msgs tr answer rc' msgs' Hrc Hround
                 | rc msgs tr1 rc1 msgs1 tr answer rc' msgs' Hrc Hround Hrest IH];
    intros Hturn Hall.
  - simpl. constructor; [exact Hturn | constructor].
  - inversion Hround as [e0 | response Hstop | response calls outcome Hstop Hd Hfail
                        | ]; subst.
    + simpl. constructor; [exact Hturn | constructor].
    + simpl. constructor; [exact Hturn | constructor].
    + simpl api_calls. rewrite api_calls_app, (dispatched_api_calls Hd).
      simpl. constructor; [exact Hturn |].
      constructor; [| constructor].
      apply user_turn_after_tools; [exact Hturn |].
      apply (Hnames msgs response calls Hstop Hd).
      simpl forallb in Hall. apply andb_true_iff in Hall. tauto.
  - inversion Hround as [| | | response calls Hstop Hd Hok]; subst.
    rewrite api_calls_app. simpl api_calls. rewrite (dispatched_api_calls Hd).
    rewrite forallb_app in Hall. apply andb_true_iff in Hall.
    destruct Hall as [Hall1 Hall2].
    simpl. constructor; [exact Hturn |].
    apply IH; [| exact Hall2].
    apply user_turn_after_tools; [exact Hturn |].
    apply (Hnames msgs response calls Hstop Hd).
    simpl forallb in Hall1. apply andb_true_iff in Hall1. tauto.
Qed.

Lemma dispatched_in blocks calls id name input o :
  dispatched blocks calls ->
  In (ToolCall id name input o) calls ->
  In (ToolUseBlock id name input) blocks.
Proof.
  induction 1 as [| | id' name' input' outcome blocks calls _ IH]; simpl; auto.
  intros [Hc | Hin]; [left; inversion Hc; reflexivity | right; auto].
Qed.

Lemma dispatched_length blocks calls :
  dispatched blocks calls ->
  length (filter is_tool_call calls) = length (tool_use_ids blocks).
Proof.
  induction 1; simpl; auto.
Qed.

(** Every dispatch of a run is for a tool-use block of a tool round. *)
Lemma rounds_run_dispatch_requested max_rounds rc msgs tr answer rc' msgs' :
  rounds_run self system_content tools max_rounds rc msgs tr answer rc' msgs' ->
  forall id name input o,
    In (ToolCall id name input o) tr ->
    exists p response,
      In (ApiCall p (Ok response)) tr
      /\ tool_round (p, Ok response) = true
      /\ In (ToolUseBlock id name input) (response_content response).
Proof.
  assert (Hround_ok : forall chain response,
             stop_reason response = "tool_use" ->
             tool_round (round_params self system_content tools chain, Ok response)
             = true).
  { intros chain response Hstop. simpl. rewrite Hstop. apply String.eqb_refl. }
  induction 1 as [rc msgs o Hrc | rc msgs tr answer rc' msgs' Hrc Hround
                 | rc msgs tr1 rc1 msgs1 tr answer rc' msgs' Hrc Hround Hrest IH];
    intros id name input o' Hin.
  - destruct Hin as [Hp | []]. discriminate Hp.
  - inversion Hround as [e0 | response Hstop | response calls outcome Hstop Hd Hall
                        | ]; subst; simpl in Hin.
    + destruct Hin as [Hp | []]. discriminate Hp.
    + destruct Hin as [Hp | []]. discriminate Hp.
    + destruct Hin as [Hp | Hin]; [discriminate Hp |].
      apply in_app_or in Hin. destruct Hin as [Hin | [Hp | []]];
        [| discriminate Hp].
      do 2 eexists. split; [left; reflexivity |].
      split; [apply Hround_ok; exact Hstop |].
      eapply dispatched_in; eassumption.
  - inversion Hround as [| | | response calls Hstop Hd Hall]; subst.
    apply in_app_or in Hin. destruct Hin as [Hin | Hin].
    + destruct Hin as [Hp | Hin]; [discriminate Hp |].
      do 2 eexists. split; [left; reflexivity |].
      split; [apply Hround_ok; exact Hstop |].
      eapply dispatched_in; eassumption.
    + destruct (IH _ _ _ _ Hin) as (p & response' & Hp & Hr & Hb).
      exists p, response'. split; [| split; assumption].
      apply in_or_app. right. exact Hp.
Qed.

Lemma requested_tool_uses_app (l1 l2 : list (ApiParams * Result Response)) :
  requested_tool_uses (l1 ++ l2)
  = (requested_tool_uses l1 + requested_tool_uses l2)%nat.
Proof.
  induction l1 as [| [p [response | e]] l1 IH]; simpl; auto.
  destruct (tool_enabled p && (stop_reason response =? "tool_use")%string);
    rewrite IH; lia.
Qed.

(** A run dispatches as many tools as its tool rounds hold tool-use
    blocks. *)
Lemma rounds_run_dispatch_count max_rounds rc msgs tr answer rc' msgs' :
  rounds_run self system_content tools max_rounds rc msgs tr answer rc' msgs' ->
  length (filter is_tool_call tr) = requested_tool_uses (api_calls tr).
Proof.
  induction 1 as [rc msgs o Hrc | rc msgs tr answer rc' msgs' Hrc Hround
                 | rc msgs tr1 rc1 msgs1 tr answer rc' msgs' Hrc Hround Hrest IH].
  - destruct o; reflexivity.
  - inversion Hround as [e0 | response Hstop | response calls outcome Hstop Hd Hall
                        | ]; subst.
    + reflexivity.
    + simpl. apply String.eqb_neq in Hstop. rewrite Hstop. reflexivity.
    + simpl. rewrite Hstop, String.eqb_refl. simpl.
      rewrite filter_app, length_app, api_calls_app, requested_tool_uses_app.
      rewrite (dispatched_length Hd), (dispatched_api_calls Hd).
      destruct outcome; simpl; lia.
  - inversion Hround as [| | | response calls Hstop Hd Hall]; subst.
    simpl. rewrite Hstop, String.eqb_refl. simpl.
    rewrite filter_app, length_app, api_calls_app.
    rewrite (dispatched_length Hd), (dispatched_api_calls Hd). simpl.
    rewrite IH. reflexivity.
Qed.

Lemma dispatched_app blocks1 calls1 blocks2 calls2 :
  dispatched blocks1 calls1 ->
  dispatched blocks2 calls2 ->
  dispatched (blocks1 ++ blocks2) (calls1 ++ calls2).
Proof.
  induction 1; intros Hd2; simpl; [exact Hd2 | |]; constructor; auto.
Qed.

Lemma dispatched_filter blocks calls :
  dispatched blocks calls -> filter is_tool_call calls = calls.
Proof.
  induction 1 as [| | id name input outcome blocks calls _ IH]; simpl; auto.
  rewrite IH. reflexivity.
Qed.

(** The dispatches of a run, taken together, are the dispatches of the
    blocks of its tool rounds, taken together: one for each tool-use
    block, in the order the model sent them. *)
Lemma rounds_run_dispatched_all max_rounds rc msgs tr answer rc' msgs' :
  rounds_run self system_content tools max_rounds rc msgs tr answer rc' msgs' ->
  dispatched (requested_blocks (api_calls tr)) (filter is_tool_call tr).
Proof.
  induction 1 as [rc msgs o Hrc | rc msgs tr answer rc' msgs' Hrc Hround
                 | rc msgs tr1 rc1 msgs1 tr answer rc' msgs' Hrc Hround Hrest IH].
  - destruct o; simpl; constructor.
  - inversion Hround as [e0 | response Hstop | response calls outcome Hstop Hd Hall
                        | ]; subst.
    + simpl. constructor.
    + simpl. apply String.eqb_neq in Hstop. rewrite Hstop. simpl. constructor.
    + simpl. rewrite Hstop, String.eqb_refl. simpl.
      rewrite filter_app, api_calls_app, (dispatched_filter Hd),
        (dispatched_api_calls Hd).
      apply dispatched_app; [exact Hd |].
      destruct outcome; simpl; constructor.
  - inversion Hround as [| | | response calls Hstop Hd Hall]; subst.
    simpl. rewrite Hstop, String.eqb_refl. simpl.
    rewrite filter_app, api_calls_app, (dispatched_filter Hd),
      (dispatched_api_calls Hd).
    simpl. apply dispatched_app; assumption.
Qed.

End MoreRunFacts.

(** ** The round budget *)

Section Budget.

Context {World : Type}.
Variable self : AIGenerator World.
Variable system_content : string.
Variable tools : list ToolSchema.
Variable tm : ToolManager World.

Lemma while_rounds_eq fuel max_rounds (s : Store World) :
  while_rounds fuel self system_content tools tm max_rounds s
  = if round_count s <? max_rounds then
      match fuel with
      | O => None
      | S fuel' =>
          match round_body self system_content tools tm s with
          | None => None
          | Some (Raise e, t, s1) => Some (Raise e, t, s1)
          | Some (Ok (Return answer), t, s1) => Some (Ok (Some answer), t ++ [], s1)
          | Some (Ok Continue, t, s1) =>
              match while_rounds fuel' self system_content tools tm max_rounds s1 with
              | None => None
              | Some (r, t2, s2) => Some (r, t ++ t2, s2)
              end
          end
      end
    else Some (Ok None, [], s).
Proof.
  destruct fuel as [| fuel]; simpl; unfold bind at 1; unfold get_round_count;
    simpl; destruct (round_count s <? max_rounds); try reflexivity.
  unfold bind.
  destruct (round_body self system_content tools tm s)
    as [[[[[answer |] | e] t] s1] |]; try reflexivity.
  destruct (while_rounds fuel self system_content tools tm max_rounds s1)
    as [[[r t2] s2] |]; reflexivity.
Qed.

(** The loop is left through its condition only with the budget used up. *)
Lemma while_rounds_exit max_rounds :
  forall fuel (s s' : Store World) tr,
    while_rounds fuel self system_content tools tm max_rounds s
    = Some (Ok None, tr, s') ->
    ~ round_count s' < max_rounds.
Proof.
  induction fuel as [| fuel IH]; intros s s' tr Hrun;
    rewrite while_rounds_eq in Hrun;
    destruct (Z.ltb_spec (round_count s) max_rounds) as [Hlt | Hge];
    try discriminate Hrun;
    try (inversion Hrun; subst; lia).
  destruct (round_body self system_content tools tm s)
    as [[[[[answer |] | e] t] s1] |]; try discriminate Hrun.
  destruct (while_rounds fuel self system_content tools tm max_rounds s1)
    as [[[r t2] s2] |] eqn:Hrest; try discriminate Hrun.
  inversion Hrun; subst. eapply IH. exact Hrest.
Qed.

(** A run that leaves the loop by a [return] goes the same way under any
    larger budget. *)
Lemma while_rounds_larger_budget max_rounds max_rounds' :
  max_rounds <= max_rounds' ->
  forall fuel fuel' (s s' : Store World) r tr,
    while_rounds fuel self system_content tools tm max_rounds s = Some (r, tr, s') ->
    r <> Ok None ->
    (fuel <= fuel')%nat ->
    while_rounds fuel' self system_content tools tm max_rounds' s = Some (r, tr, s').
Proof.
  intros Hle.
  induction fuel as [| fuel IH]; intros fuel' s s' r tr Hrun Hr Hfuel;
    rewrite while_rounds_eq in Hrun;
    destruct (Z.ltb_spec (round_count s) max_rounds) as [Hlt | Hge];
    try discriminate Hrun;
    try (inversion Hrun; subst; contradiction).
  rewrite while_rounds_eq.
  destruct (Z.ltb_spec (round_count s) max_rounds') as [_ | Hge]; [| lia].
  destruct fuel' as [| fuel']; [lia |].
  destruct (round_body self system_content tools tm s)
    as [[[[[answer |] | e] t] s1] |]; try exact Hrun.
  destruct (while_rounds fuel self system_content tools tm max_rounds s1)
    as [[[r1 t2] s2] |] eqn:Hrest; try discriminate Hrun.
  inversion Hrun; subst.
  rewrite (IH fuel' s1 s' r t2 Hrest Hr ltac:(lia)). reflexivity.
Qed.

Lemma execute_sequential_rounds_larger_budget max_rounds max_rounds'
    (s s' : Store World) r tr :
  _execute_sequential_rounds self system_content tools tm max_rounds s
  = Some (r, tr, s') ->
  round_count s' < max_rounds ->
  max_rounds <= max_rounds' ->
  _execute_sequential_rounds self system_content tools tm max_rounds' s
  = Some (r, tr, s').
Proof.
  unfold _execute_sequential_rounds.
  intros Hrun Hcount Hle.
  unfold bind at 1 in Hrun. unfold bind at 1.
  unfold set_round_count at 1 in Hrun. unfold set_round_count at 1.
  unfold bind at 1 in Hrun. unfold bind at 1.
  destruct (while_rounds (Z.to_nat max_rounds) self system_content tools tm
              max_rounds (mkStore (world s) (messages s) 0))
    as [[[returned t1] s1] |] eqn:Hloop; [| discriminate Hrun].
  assert (Hreturned : returned <> Ok None).
  { intros Hnone. subst returned.
    apply while_rounds_exit in Hloop.
    destruct (after_loop_final_call self system_content s1) as (o & w' & Hfin).
    rewrite Hfin in Hrun. inversion Hrun; subst. simpl in Hcount. lia. }
  rewrite (while_rounds_larger_budget Hle _ Hloop Hreturned
             (fuel' := Z.to_nat max_rounds') ltac:(lia)).
  exact Hrun.
Qed.

End Budget.

(** The single-round handler on concrete runs. *)

Lemma single_round_final_call_witness :
  exists calls final s',
    _handle_tool_execution scripted_generator (tool_use_response "toolu_1")
      (mkBaseParams (Some query_chain) (Some "Be brief.")) scripted_tools
      (mkStore served_search query_chain 0)
    = Some (Ok "MCP is a protocol.",
            calls ++ [ApiCall final (Ok (text_response "MCP is a protocol."))],
            s')
    /\ dispatched (response_content (tool_use_response "toolu_1")) calls
    /\ p_messages final
       = query_chain
           ++ [mkMessage assistant
                 (ResponseContent (response_content (tool_use_response "toolu_1")))]
           ++ user_message (results_of calls)
    /\ p_system final = "Be brief."
    /\ p_tools final = None
    /\ p_tool_choice final = None
    /\ messages s' = messages (mkStore served_search query_chain 0).
Proof.
  destruct (@single_round_final_call Script scripted_generator
              (tool_use_response "toolu_1") query_chain "Be brief."
              scripted_tools (mkStore served_search query_chain 0))
    as (calls & final & outcome & s' & Hrun & Hd & Hm & Hs & Ht & Hc & Hmsgs
        & Htext);
    [vm_compute; reflexivity |].
  assert (Hlast : last_outcome
                    (trace_of
                       (_handle_tool_execution scripted_generator
                          (tool_use_response "toolu_1")
                          (mkBaseParams (Some query_chain) (Some "Be brief."))
                          scripted_tools (mkStore served_search query_chain 0)))
                  = Some (Ok (text_response "MCP is a protocol.")))
    by (vm_compute; reflexivity).
  rewrite Hrun in Hlast. unfold trace_of in Hlast.
  rewrite last_outcome_app in Hlast. inversion Hlast as [Houtcome].
  exists calls, final, s'. rewrite <- Houtcome.
  split; [apply (Htext (text_response "MCP is a protocol.")
                   "MCP is a protocol." []); [exact Houtcome | reflexivity] |].
  repeat split; assumption.
Defined.

Lemma single_round_failure_propagates_witness :
  @nil Event = []
  /\ api_calls [] = []
  /\ (exists s',
        _handle_tool_execution scripted_generator (tool_use_response "toolu_1")
          (mkBaseParams (Some query_chain) (Some "Be brief.")) scripted_tools
          (mkStore failing_search query_chain 0)
        = Some (Raise "backend unreachable",
                [] ++ [ToolCall "toolu_1" "search_course_content"
                         [("query", "MCP")] (Raise "backend unreachable")],
                s')
        /\ messages s' = messages (mkStore failing_search query_chain 0))
  /\ exists served later,
       response_content (tool_use_response "toolu_1")
       = served ++ ToolUseBlock "toolu_1" "search_course_content"
                     [("query", "MCP")] :: later
       /\ dispatched served [].
Proof.
  apply (@single_round_failure_propagates Script scripted_generator
           (tool_use_response "toolu_1")
           (mkBaseParams (Some query_chain) (Some "Be brief.")) scripted_tools
           (mkStore failing_search query_chain 0) [] []).
  vm_compute. reflexivity.
Defined.

Lemma single_round_missing_system_witness :
  exists calls s',
    _handle_tool_execution scripted_generator (tool_use_response "toolu_1")
      (mkBaseParams (Some query_chain) None) scripted_tools
      (mkStore served_search query_chain 0)
    = Some (Raise "'system'", calls, s')
    /\ dispatched (response_content (tool_use_response "toolu_1")) calls
    /\ api_calls calls = [].
Proof.
  apply single_round_missing_system. vm_compute. reflexivity.
Defined.

Lemma single_round_agrees_with_sequential_witness :
  exists outcome w2,
    client scripted_generator
      (final_params scripted_generator "Be brief."
         (query_chain
            ++ [mkMessage assistant
                  (ResponseContent (response_content (tool_use_response "toolu_1")));
                mkMessage user
                  (ToolResults
                     [mkToolResult "toolu_1" "[MCP course - Lesson 1]" None])]))
      (mkScript [Ok (text_response "MCP is a protocol.")] [])
    = (outcome, w2)
    /\ _handle_tool_execution scripted_generator (tool_use_response "toolu_1")
         (mkBaseParams (Some query_chain) (Some "Be brief.")) scripted_tools
         (mkStore served_search query_chain 0)
       = Some (match outcome with
               | Ok final_response => content0_text final_response
               | Raise e => Raise e
               end,
               [ToolCall "toolu_1" "search_course_content" [("query", "MCP")]
                  (Ok "[MCP course - Lesson 1]")]
               ++ [ApiCall
                     (final_params scripted_generator "Be brief."
                        (query_chain
                           ++ [mkMessage assistant
                                 (ResponseContent
                                    (response_content (tool_use_response "toolu_1")));
                               mkMessage user
                                 (ToolResults
                                    [mkToolResult "toolu_1"
                                       "[MCP course - Lesson 1]" None])]))
                     outcome],
               mkStore w2 query_chain 0).
Proof.
  apply (@single_round_agrees_with_sequential Script scripted_generator
           (tool_use_response "toolu_1") "Be brief." scripted_tools
           (mkStore served_search query_chain 0)
           (mkStore (mkScript [Ok (text_response "MCP is a protocol.")] [])
              (query_chain
                 ++ [mkMessage assistant
                       (ResponseContent
                          (response_content (tool_use_response "toolu_1")));
                     mkMessage user
                       (ToolResults
                          [mkToolResult "toolu_1" "[MCP course - Lesson 1]" None])])
              0)).
  vm_compute. reflexivity.
Defined.

(** ** More properties of a call of [generate_response] *)

(** X5. A call makes at least one model call and, with a budget of
    [max_rounds], at most [max_rounds] model calls with tools and at most
    one without; a budget below zero counts as zero. *)
Theorem model_calls_bounded (World : Type)
    (self : AIGenerator World) (query : string) (history : option string)
    (tools : option (list ToolSchema)) (tool_manager : option (ToolManager World))
    (max_rounds : Z) (w : World) :
  exists r tr s',
    generate_response self query history tools tool_manager max_rounds w
    = Some (r, tr, s')
    /\ (1 <= length (api_calls tr))%nat
    /\ Z.of_nat (length (filter (fun c => tool_enabled (fst c)) (api_calls tr)))
       <= Z.max 0 max_rounds
    /\ (length (filter (fun c => negb (tool_enabled (fst c))) (api_calls tr))
        <= 1)%nat.
Proof.
  destruct (generate_response_run self query history tools tool_manager
              max_rounds w)
    as [(tl & tm & answer & tr & s' & _ & _ & _ & Hrun & Hruns)
       | (_ & outcome & w' & Hrun)];
    rewrite Hrun; do 3 eexists; (split; [reflexivity |]).
  - destruct (rounds_run_calls_bounded Hruns) as (H1 & H2 & H3).
    repeat split; auto. lia.
  - simpl. repeat split; lia.
Qed.

(** X6. A model call that raises is never followed by anything: it is
    the last event of the call.  Raised by a call with tools, it becomes
    the answer ["Error generating response: "] and the text of the
    exception; otherwise the call ends with that text, with the text
    after ["Error generating final response: "], or with the exception
    itself. *)
Theorem provider_failure_ends_call (World : Type)
    (self : AIGenerator World) (query : string) (history : option string)
    (tools : option (list ToolSchema)) (tool_manager : option (ToolManager World))
    (max_rounds : Z) (w : World)
    (pre post : list Event) (p : ApiParams) (e : string) :
  trace_of (generate_response self query history tools tool_manager max_rounds w)
  = pre ++ ApiCall p (Raise e) :: post ->
  post = []
  /\ exists r s',
       generate_response self query history tools tool_manager max_rounds w
       = Some (r, pre ++ [ApiCall p (Raise e)], s')
       /\ (r = Raise e
           \/ r = Ok ("Error generating response: " ++ e)%string
           \/ r = Ok ("Error generating final response: " ++ e)%string)
       /\ (tool_enabled p = true ->
           r = Ok ("Error generating response: " ++ e)%string).
Proof.
  intros Htrace.
  destruct (generate_response_run self query history tools tool_manager
              max_rounds w)
    as [(tl & tm & answer & tr & s' & _ & _ & _ & Hrun & Hruns)
       | (_ & outcome & w' & Hrun)];
    rewrite Hrun in Htrace |- *; simpl in Htrace.
  - destruct (api_failure_ends_run Hruns _ _ _ _ Htrace) as (Hpost & Hans & Hen).
    subst post tr. split; [reflexivity |].
    do 2 eexists. split; [reflexivity |]. split.
    + destruct Hans as [Hans | Hans]; rewrite Hans; auto.
    + intros Htools. rewrite (Hen Htools). reflexivity.
  - destruct pre as [| x [| y pre]]; simpl in Htrace; try discriminate Htrace.
    inversion Htrace; subst. split; [reflexivity |].
    do 2 eexists. split; [reflexivity |]. split; [auto |].
    intros Htools. discriminate Htools.
Qed.

Lemma provider_failure_ends_call_witness :
  @nil Event = []
  /\ exists r s',
       search_call provider_down
       = Some (r,
               [] ++ [ApiCall (round_params scripted_generator
                                 (system_content_of None) [search_tool] query_chain)
                        (Raise "Connection error.")],
               s')
       /\ (r = Raise "Connection error."
           \/ r = Ok ("Error generating response: " ++ "Connection error.")%string
           \/ r = Ok ("Error generating final response: "
                        ++ "Connection error.")%string)
       /\ (tool_enabled (round_params scripted_generator
                           (system_content_of None) [search_tool] query_chain)
           = true ->
           r = Ok ("Error generating response: " ++ "Connection error.")%string).
Proof.
  apply (@provider_failure_ends_call Script scripted_generator "What is MCP?"
           None (Some [search_tool]) (Some scripted_tools) 2 provider_down [] []).
  vm_compute. reflexivity.
Defined.

(** X7. The message chain of a call only grows: the chain of every model
    call starts with the user message of the query, and the chain of a
    later model call is the chain of an earlier one followed by at least
    one more message. *)
Theorem chain_only_grows (World : Type)
    (self : AIGenerator World) (query : string) (history : option string)
    (tools : option (list ToolSchema)) (tool_manager : option (ToolManager World))
    (max_rounds : Z) (w : World)
    (pre post : list Event) (p : ApiParams) (o : Result Response) :
  trace_of (generate_response self query history tools tool_manager max_rounds w)
  = pre ++ ApiCall p o :: post ->
  (exists ext, p_messages p = mkMessage user (Str query) :: ext)
  /\ forall p' o', In (ApiCall p' o') post ->
       exists m ext, p_messages p' = p_messages p ++ m :: ext.
Proof.
  intros Htrace.
  destruct (generate_response_run self query history tools tool_manager
              max_rounds w)
    as [(tl & tm & answer & tr & s' & _ & _ & _ & Hrun & Hruns)
       | (_ & outcome & w' & Hrun)];
    rewrite Hrun in Htrace; simpl in Htrace.
  - split.
    + destruct (rounds_run_messages_extend Hruns p o) as (ext & Hext).
      * rewrite Htrace. apply in_elt.
      * exists ext. rewrite Hext. reflexivity.
    + intros p' o' Hin.
      eapply rounds_run_chain_grows; eassumption.
  - destruct pre as [| x [| y pre]]; simpl in Htrace; try discriminate Htrace.
    inversion Htrace; subst. split.
    + exists []. reflexivity.
    + intros p' o' [].
Qed.

Lemma chain_only_grows_witness :
  (exists ext,
      p_messages (round_params scripted_generator (system_content_of None)
                    [search_tool] query_chain)
      = mkMessage user (Str "What is MCP?") :: ext)
  /\ forall p' o',
       In (ApiCall p' o') (tl (trace_of (search_call two_searches))) ->
       exists m ext,
         p_messages p'
         = p_messages (round_params scripted_generator (system_content_of None)
                         [search_tool] query_chain)
             ++ m :: ext.
Proof.
  apply (@chain_only_grows Script scripted_generator "What is MCP?" None
           (Some [search_tool]) (Some scripted_tools) 2 two_searches []
           (tl (trace_of (search_call two_searches)))
           (round_params scripted_generator (system_content_of None)
              [search_tool] query_chain)
           (Ok (tool_use_response "toolu_1"))).
  vm_compute. reflexivity.
Defined.

(** X8. While every response that asks for tools holds at least one
    tool-use block, every model call of a call is made on a chain whose
    roles alternate, from the user message of the query to a user
    message. *)
Theorem chains_alternate (World : Type)
    (self : AIGenerator World) (query : string) (history : option string)
    (tools : option (list ToolSchema)) (tool_manager : option (ToolManager World))
    (max_rounds : Z) (w : World) :
  forallb names_a_tool
    (trace_of (generate_response self query history tools tool_manager
                 max_rounds w)) = true ->
  Forall (fun c => user_turn (p_messages (fst c)) = true)
    (api_calls
       (trace_of (generate_response self query history tools tool_manager
                    max_rounds w))).
Proof.
  intros Hnames.
  destruct (generate_response_run self query history tools tool_manager
              max_rounds w)
    as [(tl & tm & answer & tr & s' & _ & _ & _ & Hrun & Hruns)
       | (_ & outcome & w' & Hrun)];
    rewrite Hrun in Hnames |- *; simpl trace_of in *.
  - eapply rounds_run_user_turn; [exact Hruns | reflexivity | exact Hnames].
  - simpl. constructor; [reflexivity | constructor].
Qed.

Lemma chains_alternate_witness :
  Forall (fun c => user_turn (p_messages (fst c)) = true)
    (api_calls (trace_of (search_call two_searches))).
Proof.
  apply (@chains_alternate Script scripted_generator "What is MCP?" None
           (Some [search_tool]) (Some scripted_tools) 2 two_searches).
  vm_compute. reflexivity.
Defined.

(** X9. No tool is dispatched that the model did not ask for: every
    dispatch of a call has the id, the name and the input of a tool-use
    block of a response that answered a model call with tools of that
    call with stop reason [tool_use]. *)
Theorem dispatches_were_requested (World : Type)
    (self : AIGenerator World) (query : string) (history : option string)
    (tools : option (list ToolSchema)) (tool_manager : option (ToolManager World))
    (max_rounds : Z) (w : World)
    (id name : string) (input : ToolInput) (o : Result string) :
  In (ToolCall id name input o)
     (trace_of (generate_response self query history tools tool_manager
                  max_rounds w)) ->
  exists p response,
    In (ApiCall p (Ok response))
       (trace_of (generate_response self query history tools tool_manager
                    max_rounds w))
    /\ tool_round (p, Ok response) = true
    /\ In (ToolUseBlock id name input) (response_content response).
Proof.
  intros Hin.
  destruct (generate_response_run self query history tools tool_manager
              max_rounds w)
    as [(tl & tm & answer & tr & s' & _ & _ & _ & Hrun & Hruns)
       | (_ & outcome & w' & Hrun)];
    rewrite Hrun in Hin |- *; simpl trace_of in *.
  - eapply rounds_run_dispatch_requested; eassumption.
  - destruct Hin as [Hp | []]. discriminate Hp.
Qed.

Lemma dispatches_were_requested_witness :
  exists p response,
    In (ApiCall p (Ok response)) (trace_of (search_call failing_search))
    /\ tool_round (p, Ok response) = true
    /\ In (ToolUseBlock "toolu_1" "search_course_content" [("query", "MCP")])
          (response_content response).
Proof.
  apply (@dispatches_were_requested Script scripted_generator "What is MCP?"
           None (Some [search_tool]) (Some scripted_tools) 2 failing_search
           "toolu_1" "search_course_content" [("query", "MCP")]
           (Raise "backend unreachable")).
  vm_compute. right. left. reflexivity.
Defined.

(** X10. The dispatches of a call are, one for one and in order, the
    tool-use blocks the model sent in its tool rounds: each requested
    tool use is dispatched exactly once, with its id, name and input,
    whether or not an earlier dispatch of the round raised, and nothing
    else is dispatched; so the call dispatches exactly as many tools as
    those responses hold tool-use blocks. *)
Theorem dispatch_count (World : Type)
    (self : AIGenerator World) (query : string) (history : option string)
    (tools : option (list ToolSchema)) (tool_manager : option (ToolManager World))
    (max_rounds : Z) (w : World) :
  exists r tr s',
    generate_response self query history tools tool_manager max_rounds w
    = Some (r, tr, s')
    /\ length (filter is_tool_call tr) = requested_tool_uses (api_calls tr)
    /\ dispatched (requested_blocks (api_calls tr)) (filter is_tool_call tr).
Proof.
  destruct (generate_response_run self query history tools tool_manager
              max_rounds w)
    as [(tl & tm & answer & tr & s' & _ & _ & _ & Hrun & Hruns)
       | (_ & outcome & w' & Hrun)];
    rewrite Hrun; do 3 eexists; (split; [reflexivity |]).
  - split; [eapply rounds_run_dispatch_count; exact Hruns
           | eapply rounds_run_dispatched_all; exact Hruns].
  - destruct outcome; split; try reflexivity; simpl; constructor.
Qed.

(** X11. Every model call of a call carries the model of the generator,
    temperature 0 and at most 800 tokens; it carries either the tool
    list of the call with tool choice [auto], or neither key. *)
Theorem call_parameters (World : Type)
    (self : AIGenerator World) (query : string) (history : option string)
    (tools : option (list ToolSchema)) (tool_manager : option (ToolManager World))
    (max_rounds : Z) (w : World) :
  exists r tr s',
    generate_response self query history tools tool_manager max_rounds w
    = Some (r, tr, s')
    /\ Forall (fun c =>
                 p_model (fst c) = model self
                 /\ p_temperature (fst c) = 0
                 /\ p_max_tokens (fst c) = 800
                 /\ ((p_tools (fst c) = tools
                      /\ p_tool_choice (fst c) = Some "auto")
                     \/ (p_tools (fst c) = None
                         /\ p_tool_choice (fst c) = None)))
              (api_calls tr).
Proof.
  destruct (generate_response_run self query history tools tool_manager
              max_rounds w)
    as [(tl & tm & answer & tr & s' & Htl & _ & _ & Hrun & Hruns)
       | (_ & outcome & w' & Hrun)];
    rewrite Hrun; do 3 eexists; (split; [reflexivity |]).
  - apply Forall_forall. intros [p o] Hin. simpl.
    apply api_calls_in in Hin.
    destruct (rounds_run_params Hruns _ _ Hin) as (chain & [Hp | Hp]);
      subst p tools; simpl; repeat split; auto.
  - simpl. constructor; [| constructor]. simpl. repeat split; auto.
Qed.

(** X12. With tools, [round_count] ends as the number of model calls
    with tools that were answered, and never passes the budget. *)
Theorem round_count_counts_answered_rounds (World : Type)
    (self : AIGenerator World) (query : string) (history : option string)
    (tools : list ToolSchema) (tm : ToolManager World) (max_rounds : Z)
    (w : World) :
  tools <> [] ->
  exists answer tr s',
    generate_response self query history (Some tools) (Some tm) max_rounds w
    = Some (Ok answer, tr, s')
    /\ round_count s'
       = Z.of_nat (length (filter answered_round (api_calls tr)))
    /\ round_count s' <= Z.max 0 max_rounds.
Proof.
  intros Htools.
  destruct (generate_response_run self query history (Some tools) (Some tm)
              max_rounds w)
    as [(tl & tm' & answer & tr & s' & _ & _ & _ & Hrun & Hruns)
       | ([H | [H | H]] & _)]; try discriminate H.
  - rewrite Hrun. do 3 eexists. split; [reflexivity |].
    destruct (rounds_run_round_count Hruns) as (Hcount & Hbound).
    split; [rewrite Hcount; lia | exact Hbound].
  - inversion H. contradiction.
Qed.

Lemma round_count_counts_answered_rounds_witness :
  exists answer tr s',
    search_call two_searches = Some (Ok answer, tr, s')
    /\ round_count s'
       = Z.of_nat (length (filter answered_round (api_calls tr)))
    /\ round_count s' <= Z.max 0 2.
Proof.
  apply (@round_count_counts_answered_rounds Script scripted_generator
           "What is MCP?" None [search_tool] scripted_tools 2 two_searches).
  discriminate.
Defined.

(** X13. A call that ends with [round_count] below its budget ends the
    same way, with the same answer, trace and store, under any larger
    budget. *)
Theorem larger_budget_same_call (World : Type)
    (self : AIGenerator World) (query : string) (history : option string)
    (tools : option (list ToolSchema)) (tool_manager : option (ToolManager World))
    (max_rounds max_rounds' : Z) (w : World)
    (r : Result string) (tr : list Event) (s' : Store World) :
  generate_response self query history tools tool_manager max_rounds w
  = Some (r, tr, s') ->
  round_count s' < max_rounds ->
  max_rounds <= max_rounds' ->
  generate_response self query history tools tool_manager max_rounds' w
  = Some (r, tr, s').
Proof.
  unfold generate_response.
  intros Hrun Hcount Hle.
  destruct tools as [[| t ts] |]; try exact Hrun.
  destruct tool_manager as [tm |]; try exact Hrun.
  eapply execute_sequential_rounds_larger_budget; eassumption.
Qed.

Lemma larger_budget_same_call_witness :
  generate_response scripted_generator "Capital of France?" None
    (Some [search_tool]) (Some scripted_tools) 5 direct_answer
  = Some (Ok "Paris.",
          [ApiCall (round_params scripted_generator (system_content_of None)
                      [search_tool] [mkMessage user (Str "Capital of France?")])
             (Ok (text_response "Paris."))],
          mkStore (mkScript [] []) [mkMessage user (Str "Capital of France?")] 1).
Proof.
  apply (@larger_budget_same_call Script scripted_generator "Capital of France?"
           None (Some [search_tool]) (Some scripted_tools) 2 5 direct_answer);
    [vm_compute; reflexivity | simpl; lia | lia].
Defined.

(** ** What the model is told, and what the caller is told *)

Section Reports.

Context {World : Type}.
Variable self : AIGenerator World.
Variable system_content : string.
Variable tools : list ToolSchema.

Lemma dispatch_result_in calls id name input o :
  In (ToolCall id name input o) calls ->
  In (result_of_dispatch id o) (results_of calls).
Proof.
  induction calls as [| c calls IH]; simpl; intros Hin; [exact Hin |].
  destruct Hin as [Hc | Hin].
  - subst c. left. reflexivity.
  - destruct c; [| right]; auto.
Qed.

Lemma after_tools_reports msgs response calls id name input o :
  In (ToolCall id name input o) calls ->
  In (mkMessage user (ToolResults (results_of calls)))
     (after_tools msgs response calls)
  /\ In (result_of_dispatch id o) (results_of calls).
Proof.
  intros Hin. apply dispatch_result_in in Hin. split; [| exact Hin].
  unfold after_tools. apply in_or_app. right. apply in_or_app. right.
  eapply user_message_in. exact Hin.
Qed.

(** After any dispatch, the run has the rest of that round's dispatches
    and then a model call whose chain holds the result of the dispatch. *)
Lemma dispatch_reaches_next_call max_rounds rc msgs tr answer rc' msgs' :
  rounds_run self system_content tools max_rounds rc msgs tr answer rc' msgs' ->
  forall pre id name input o post,
    tr = pre ++ ToolCall id name input o :: post ->
    exists rest next outcome post' results,
      post = rest ++ ApiCall next outcome :: post'
      /\ forallb is_tool_call rest = true
      /\ In (mkMessage user (ToolResults results)) (p_messages next)
      /\ In (result_of_dispatch id o) results.
Proof.
  induction 1 as [rc msgs o Hrc | rc msgs tr answer rc' msgs' Hrc Hround
                 | rc msgs tr1 rc1 msgs1 tr answer rc' msgs' Hrc Hround Hrest IH].
  - intros pre id name input o' post Heq.
    destruct pre as [| x [| y pre]]; simpl in Heq; discriminate Heq.
  - inversion Hround as [e0 | response Hstop | response calls outcome Hstop Hd Hall
                        | ]; subst;
      intros pre id name input o' post Heq;
      try (destruct pre as [| x [| y pre]]; simpl in Heq; discriminate Heq).
    destruct pre as [| x pre]; simpl in Heq; inversion Heq as [[Hx Htail]].
    symmetry in Htail. apply split_before_last in Htail; [| discriminate].
    destruct Htail as (rest & Hpost & Hcalls).
    destruct (after_tools_reports msgs response calls id name input o')
      as (Hmsg & Hres); [rewrite Hcalls; apply in_elt |].
    exists rest,
      (final_params self system_content (after_tools msgs response calls)),
      outcome, [], (results_of calls).
    repeat split; auto.
    apply dispatched_only_tool_calls in Hd.
    rewrite Hcalls, forallb_app in Hd.
    apply andb_true_iff in Hd. destruct Hd as [_ Hd]. exact Hd.
  - inversion Hround as [| | | response calls Hstop Hd Hall]; subst.
    intros pre id name input o' post Heq.
    destruct pre as [| x pre]; simpl in Heq; inversion Heq as [[Hx Htail]].
    apply app_eq_app in Htail.
    destruct Htail as (l & [(Hcalls & Hpost) | (Hpre & Htr)]).
    + destruct (rounds_run_head Hrest) as (next & outcome & post' & Htr & Hmsgs).
      destruct l as [| y l]; simpl in Hpost.
      * rewrite Htr in Hpost. discriminate Hpost.
      * inversion Hpost; subst y post.
        destruct (after_tools_reports msgs response calls id name input o')
          as (Hmsg & Hres); [rewrite Hcalls; apply in_elt |].
        exists l, next, outcome, post', (results_of calls).
        rewrite Htr, Hmsgs. repeat split; auto.
        apply dispatched_only_tool_calls in Hd.
        rewrite Hcalls, forallb_app in Hd.
        apply andb_true_iff in Hd. destruct Hd as [_ Hd]. exact Hd.
    + eapply IH. exact Htr.
Qed.

(** A run ends with a model call, and its answer is the text that call
    ends in. *)
Lemma rounds_run_answer_is_last_call max_rounds rc msgs tr answer rc' msgs' :
  rounds_run self system_content tools max_rounds rc msgs tr answer rc' msgs' ->
  exists pre last outcome,
    tr = pre ++ [ApiCall last outcome]
    /\ (answer = answer_or "Error generating response: " outcome
        \/ answer = answer_or "Error generating final response: " outcome).
Proof.
  induction 1 as [rc msgs o Hrc | rc msgs tr answer rc' msgs' Hrc Hround
                 | rc msgs tr1 rc1 msgs1 tr answer rc' msgs' Hrc Hround Hrest IH].
  - exists [], (final_params self system_content msgs), o. auto.
  - inversion Hround as [e0 | response Hstop | response calls outcome Hstop Hd Hall
                        | ]; subst.
    + exists []. do 2 eexists. split; [reflexivity | auto].
    + exists []. do 2 eexists. split; [reflexivity | auto].
    + eexists (_ :: calls). do 2 eexists. split; [reflexivity | auto].
  - destruct IH as (pre & last & outcome & Htr & Hans).
    exists (tr1 ++ pre), last, outcome.
    rewrite Htr, app_assoc. auto.
Qed.

End Reports.

(** X14. What a tool returns reaches the model at once: after any
    dispatch come only the other dispatches of its round and then a
    model call, and the chain of that model call holds a user message
    with the result of the dispatch, under the id of its block: the text
    the tool returned as it is, or ["Tool execution failed: "] and the
    text of the exception. *)
Theorem dispatch_result_reaches_model (World : Type)
    (self : AIGenerator World) (query : string) (history : option string)
    (tools : option (list ToolSchema)) (tool_manager : option (ToolManager World))
    (max_rounds : Z) (w : World)
    (pre post : list Event) (id name : string) (input : ToolInput)
    (o : Result string) :
  trace_of (generate_response self query history tools tool_manager max_rounds w)
  = pre ++ ToolCall id name input o :: post ->
  exists rest next outcome post' results,
    post = rest ++ ApiCall next outcome :: post'
    /\ forallb is_tool_call rest = true
    /\ In (mkMessage user (ToolResults results)) (p_messages next)
    /\ In (mkToolResult id
             match o with
             | Ok tool_result => tool_result
             | Raise e => ("Tool execution failed: " ++ e)%string
             end None)
          results.
Proof.
  intros Htrace.
  destruct (generate_response_run self query history tools tool_manager
              max_rounds w)
    as [(tl & tm & answer & tr & s' & _ & _ & _ & Hrun & Hruns)
       | (_ & outcome & w' & Hrun)];
    rewrite Hrun in Htrace; simpl in Htrace.
  - destruct (dispatch_reaches_next_call Hruns _ _ _ _ _ _ Htrace)
      as (rest & next & outcome & post' & results & Hpost & Hrest & Hmsg & Hres).
    exists rest, next, outcome, post', results.
    repeat split; auto.
    destruct o; exact Hres.
  - destruct pre as [| x [| y pre]]; simpl in Htrace; discriminate Htrace.
Qed.

Lemma dispatch_result_reaches_model_witness :
  exists rest next outcome post' results,
    tl (tl (trace_of (search_call two_searches)))
    = rest ++ ApiCall next outcome :: post'
    /\ forallb is_tool_call rest = true
    /\ In (mkMessage user (ToolResults results)) (p_messages next)
    /\ In (mkToolResult "toolu_1" "[MCP course - Lesson 1]" None) results.
Proof.
  apply (@dispatch_result_reaches_model Script scripted_generator "What is MCP?"
           None (Some [search_tool]) (Some scripted_tools) 2 two_searches
           [ApiCall (round_params scripted_generator (system_content_of None)
                       [search_tool] query_chain)
              (Ok (tool_use_response "toolu_1"))]
           (tl (tl (trace_of (search_call two_searches))))
           "toolu_1" "search_course_content" [("query", "MCP")]
           (Ok "[MCP course - Lesson 1]")).
  vm_compute. reflexivity.
Defined.

(** X15. With tools, the last thing a call does is a model call, and the
    answer is what that call ends in: the text of the first block of its
    response (when that block is a text block, the call returns its
    text), or, when the call raised or the response has no such text,
    the message of the handler that caught it. *)
Theorem answer_is_last_model_call (World : Type)
    (self : AIGenerator World) (query : string) (history : option string)
    (tools : list ToolSchema) (tm : ToolManager World) (max_rounds : Z)
    (w : World) :
  tools <> [] ->
  exists pre last outcome s',
    (generate_response self query history (Some tools) (Some tm) max_rounds w
     = Some (Ok (answer_or "Error generating response: " outcome),
             pre ++ [ApiCall last outcome], s')
     \/ generate_response self query history (Some tools) (Some tm) max_rounds w
        = Some (Ok (answer_or "Error generating final response: " outcome),
                pre ++ [ApiCall last outcome], s'))
    /\ (forall response text blocks,
          outcome = Ok response ->
          response_content response = TextBlock text :: blocks ->
          generate_response self query history (Some tools) (Some tm) max_rounds w
          = Some (Ok text, pre ++ [ApiCall last outcome], s'))
    /\ forall e,
         outcome = Raise e ->
         generate_response self query history (Some tools) (Some tm) max_rounds w
         = Some (Ok ("Error generating response: " ++ e)%string,
                 pre ++ [ApiCall last outcome], s')
         \/ generate_response self query history (Some tools) (Some tm)
              max_rounds w
            = Some (Ok ("Error generating final response: " ++ e)%string,
                    pre ++ [ApiCall last outcome], s').
Proof.
  intros Htools.
  destruct (generate_response_run self query history (Some tools) (Some tm)
              max_rounds w)
    as [(tl & tm' & answer & tr & s' & _ & _ & _ & Hrun & Hruns)
       | ([H | [H | H]] & _)]; try discriminate H.
  - destruct (rounds_run_answer_is_last_call Hruns)
      as (pre & last & outcome & Htr & Hans).
    exists pre, last, outcome, s'. rewrite Hrun. subst tr.
    split; [destruct Hans as [Hans | Hans]; rewrite Hans; auto |].
    split.
    + intros response text blocks Ho Hblocks. subst outcome.
      destruct Hans as [Hans | Hans]; rewrite Hans;
        rewrite (answer_or_first_block _ _ Hblocks); reflexivity.
    + intros e Ho. subst outcome.
      destruct Hans as [Hans | Hans]; rewrite Hans; auto.
  - inversion H. contradiction.
Qed.

Lemma answer_is_last_model_call_witness :
  exists pre last s',
    search_call two_searches
    = Some (Ok "MCP is a protocol.",
            pre ++ [ApiCall last (Ok (text_response "MCP is a protocol."))], s').
Proof.
  destruct (@answer_is_last_model_call Script scripted_generator "What is MCP?"
              None [search_tool] scripted_tools 2 two_searches)
    as (pre & last & outcome & s' & Hrun & Htext & _); [discriminate |].
  assert (Hlast : last_outcome (trace_of (search_call two_searches))
                  = Some (Ok (text_response "MCP is a protocol.")))
    by (vm_compute; reflexivity).
  assert (Htrace : trace_of (search_call two_searches)
                   = pre ++ [ApiCall last outcome])
    by (unfold search_call; destruct Hrun as [Hrun | Hrun]; rewrite Hrun;
        reflexivity).
  rewrite Htrace, last_outcome_app in Hlast. inversion Hlast as [Houtcome].
  exists pre, last, s'. rewrite <- Houtcome.
  apply (Htext (text_response "MCP is a protocol.") "MCP is a protocol." []);
    [exact Houtcome | reflexivity].
Defined.
